(** * Verification of the multi-circuit compilation front end

    The development embeds, as Rocq functions, the Python code of

    - [end_to_end_round_gen.py]: the reference rounding function [round];
    - [program_compiler.py]: [CircuitDef] and [ProgramCompiler];
    - [program.py]: [Program] and [ProgramCircuit];

    and proves the properties the specification states about them.
    Python exceptions are values of [Exception]; a call that may raise
    returns a [Result]. *)

From Stdlib Require Import ZArith List String Ascii Bool Lia PeanoNat.
From Stdlib Require Import DecimalString.
Import ListNotations.

Open Scope list_scope.
Open Scope string_scope.

(** ** Python exceptions and results *)

Inductive Exception : Type :=
| AssertionError
| ValueError (message : string)
| RuntimeError (message : string)
| AttributeError (message : string)
| KeyError (key : string)
| TypeError (message : string)
| StopIteration.

Inductive Result (A : Type) : Type :=
| Ok (a : A)
| Raise (e : Exception).

Arguments Ok {A} a.
Arguments Raise {A} e.

Definition is_ok {A} (r : Result A) : bool :=
  match r with Ok _ => true | Raise _ => false end.

Definition rbind {A B} (r : Result A) (k : A -> Result B) : Result B :=
  match r with
  | Ok a => k a
  | Raise e => Raise e
  end.

Declare Scope result_scope.
Delimit Scope result_scope with result.
Notation "x <- r ;; k" := (rbind r (fun x => k))
  (at level 61, r at next level, right associativity) : result_scope.

(** ** [end_to_end_round_gen.py] *)

Module RoundGen.

Local Open Scope Z_scope.
Local Open Scope result_scope.

(** Python's [a << n] and [a >> n] on unbounded integers: a negative
    shift count raises [ValueError]. *)
Definition lshift (a n : Z) : Result Z :=
  if n <? 0 then Raise (ValueError "negative shift count")
  else Ok (Z.shiftl a n).

Definition rshift (a n : Z) : Result Z :=
  if n <? 0 then Raise (ValueError "negative shift count")
  else Ok (Z.shiftr a n).

(** [def round(val, p_start, p_end, signed=False)] *)
Definition round (val p_start p_end : Z) (signed : bool) : Result Z :=
  let p_delta := p_start - p_end in
  carry_mask <- lshift 1 (p_delta - 1) ;;
  val <- (if negb (Z.land val carry_mask =? 0)
          then (c <- lshift carry_mask 1 ;; Ok (val + c))
          else Ok val) ;;
  output <- rshift val p_delta ;;
  if signed then
    bound <- lshift 1 (p_end - 1) ;;
    Ok (if output >=? bound then - output else output)
  else Ok output.

End RoundGen.

(** ** State threaded through calls that may raise

    [M S A] is a computation over a mutable state [S] that either returns
    an [A] or raises; the state reached at the raise is kept, as Python
    keeps the mutations done before an exception. *)

Definition M (S A : Type) : Type := S -> Result A * S.

Definition ret {S A} (a : A) : M S A := fun s => (Ok a, s).

Definition raise {S A} (e : Exception) : M S A := fun s => (Raise e, s).

Definition bind {S A B} (m : M S A) (k : A -> M S B) : M S B :=
  fun s =>
    match m s with
    | (Ok a, s') => k a s'
    | (Raise e, s') => (Raise e, s')
    end.

Definition get {S} : M S S := fun s => (Ok s, s).

Definition put {S} (s : S) : M S unit := fun _ => (Ok tt, s).

Definition modify {S} (f : S -> S) : M S unit := fun s => (Ok tt, f s).

Definition lift {S A} (r : Result A) : M S A := fun s => (r, s).

(** Run a computation on a component of the state. *)
Definition zoom {S T A} (proj : S -> T) (upd : S -> T -> S) (m : M T A) : M S A :=
  fun s => let (r, t) := m (proj s) in (r, upd s t).

Declare Scope monad_scope.
Delimit Scope monad_scope with monad.
Notation "x <~ m ;; k" := (bind m (fun x => k))
  (at level 61, m at next level, right associativity) : monad_scope.
Notation "m ;;; k" := (bind m (fun _ => k))
  (at level 61, right associativity) : monad_scope.

(** [assert cond] *)
Definition assert {S} (cond : bool) : M S unit :=
  if cond then ret tt else raise AssertionError.

(** ** Relating two runs *)

(** Two outcomes agree when both return, with related values, or both
    raise. *)
Definition same_result {A} (Q : A -> A -> Prop) (r1 r2 : Result A) : Prop :=
  match r1, r2 with
  | Ok a1, Ok a2 => Q a1 a2
  | Raise _, Raise _ => True
  | _, _ => False
  end.

(** Two computations started in related states agree on their outcomes and
    end in related states. *)
Definition sim {S A} (R : S -> S -> Prop) (Q : A -> A -> Prop)
    (m1 m2 : M S A) : Prop :=
  forall s1 s2, R s1 s2 ->
    same_result Q (fst (m1 s1)) (fst (m2 s2)) /\ R (snd (m1 s1)) (snd (m2 s2)).

Definition any {A} : A -> A -> Prop := fun _ _ => True.

(** A property of the state that a computation keeps. *)
Definition preserves {S A} (P : S -> Prop) (m : M S A) : Prop :=
  forall s, P s -> P (snd (m s)).

(** ** Python values that reach the front end

    Arguments, samples and results are dynamically typed.  [Inner] is the
    backend value wrapped by [fhe.Value]. *)

#[warnings="-register-all"]
Inductive Any (Inner : Type) : Type :=
| PyNone
| PyInt (n : Z)
| PyArray (shape : list Z) (flat : list Z)
| PyValue (inner : Inner)
| PyTuple (items : list (Any Inner)).

Arguments PyNone {Inner}.
Arguments PyInt {Inner} n.
Arguments PyArray {Inner} shape flat.
Arguments PyValue {Inner} inner.
Arguments PyTuple {Inner} items.

(** [isinstance(x, tuple)] *)
Definition is_tuple {Inner} (x : Any Inner) : bool :=
  match x with PyTuple _ => true | _ => false end.

(** [x if isinstance(x, tuple) else (x,)], as the list of its items *)
Definition as_tuple {Inner} (x : Any Inner) : list (Any Inner) :=
  match x with
  | PyTuple items => items
  | _ => [x]
  end.

Definition type_name {Inner} (x : Any Inner) : string :=
  match x with
  | PyNone => "NoneType"
  | PyInt _ => "int"
  | PyArray _ _ => "numpy.ndarray"
  | PyValue _ => "Value"
  | PyTuple _ => "tuple"
  end.

(** [int(arg)] *)
Definition py_int {Inner} (arg : Any Inner) : Result Z :=
  match arg with
  | PyInt n => Ok n
  | PyArray _ [n] => Ok n
  | PyArray _ _ =>
      Raise (TypeError "only length-1 arrays can be converted to Python scalars")
  | _ =>
      Raise (TypeError
               ("int() argument must be a string, a bytes-like object or a real number, not '"
                ++ type_name arg ++ "'"))
  end.

(** [result.inner] *)
Definition value_inner {Inner} (result : Any Inner) : Result Inner :=
  match result with
  | PyValue inner => Ok inner
  | _ =>
      Raise (AttributeError
               ("'" ++ type_name result ++ "' object has no attribute 'inner'"))
  end.

(** [enumerate(l)] *)
Definition enumerate {A} (l : list A) : list (nat * A) :=
  combine (seq 0 (List.length l)) l.

(** [try: m  except Exception as e: handler(e)] *)
Definition try_except {S A} (m : M S A) (handler : Exception -> M S A) : M S A :=
  fun s =>
    match m s with
    | (Ok a, s') => (Ok a, s')
    | (Raise e, s') => handler e s'
    end.

(** [str(n)] for a non-negative integer. *)
Definition str_of_nat (n : nat) : string :=
  NilZero.string_of_uint (Nat.to_uint n).

(** Lookup in a dict kept as an association list in insertion order. *)
Fixpoint dict_get {V} (d : list (string * V)) (key : string) : option V :=
  match d with
  | [] => None
  | (k, v) :: d' => if String.eqb key k then Some v else dict_get d' key
  end.

(** [d[key]], raising [KeyError] *)
Definition dict_item {V} (d : list (string * V)) (key : string) : Result V :=
  match dict_get d key with
  | Some v => Ok v
  | None => Raise (KeyError key)
  end.

(** [d[key] = v] for a key already present keeps its position. *)
Fixpoint dict_set {V} (d : list (string * V)) (key : string) (v : V) : list (string * V) :=
  match d with
  | [] => [(key, v)]
  | (k, v') :: d' =>
      if String.eqb key k then (k, v) :: d' else (k, v') :: dict_set d' key v
  end.

(** [key in d] / [x in list] on names *)
Definition mem (x : string) (l : list string) : bool :=
  existsb (String.eqb x) l.

(** Modelled from the spec: the encryption status of a parameter,
    encrypted or clear (section 3); the enumeration [EncryptionStatus] is
    declared in [compiler.py], which is not among the files embedded
    here. *)
Inductive EncryptionStatus : Type := CLEAR | ENCRYPTED.

Definition EncryptionStatus_eqb (a b : EncryptionStatus) : bool :=
  match a, b with
  | CLEAR, CLEAR | ENCRYPTED, ENCRYPTED => true
  | _, _ => false
  end.

(** Modelled from the spec: the [Configuration] of section 3, a set of
    named compilation options; [configuration.py] is not among the files
    embedded here, the record holds the options that [program.py] and
    [program_compiler.py] read. *)
Record Configuration : Type := {
  fhe_simulation : bool;
  fhe_execution : bool;
  composable : bool;
  auto_adjust_rounders : bool;
  auto_adjust_truncators : bool;
  use_insecure_key_cache : bool;
  enable_unsafe_features : bool;
  insecure_key_cache_location : option string;
  dump_artifacts_on_unexpected_failures : bool
}.

(** Modelled from the spec: the debug-artifacts collaborator of section 6,
    write-only from the core: it accepts named graph snapshots, source
    code, per-parameter encryption statuses, serialized client parameters
    and an export call; [artifacts.py] is not among the files embedded
    here. *)
Inductive ArtifactEntry (Graph : Type) : Type :=
| SourceCode (function_name : string)
| ParameterEncryptionStatus (param : string) (status : EncryptionStatus)
| GraphSnapshot (stage : string) (g : Graph).

Arguments SourceCode {Graph} function_name.
Arguments ParameterEncryptionStatus {Graph} param status.
Arguments GraphSnapshot {Graph} stage g.

Definition CircuitDebugArtifacts (Graph : Type) : Type := list (ArtifactEntry Graph).

Record ProgramDebugArtifacts (Graph : Type) : Type := {
  pa_circuits : list (string * CircuitDebugArtifacts Graph);
  pa_mlir_to_compile : option string;
  pa_client_parameters : option string;
  pa_exported : bool
}.

Arguments pa_circuits {Graph} p.
Arguments pa_mlir_to_compile {Graph} p.
Arguments pa_client_parameters {Graph} p.
Arguments pa_exported {Graph} p.

(** A Python function: its name, the parameter names of its signature in
    order, and its code.  [Body] also stands for the auto rounders and
    truncators the code refers to, which the auto tuners mutate. *)
Record Callable (Body : Type) : Type := {
  __name__ : string;
  parameters : list string;
  body : Body
}.

Arguments __name__ {Body} c.
Arguments parameters {Body} c.
Arguments body {Body} c.

(** ** Collaborators

    The tracer, the fuser, the graph, the auto tuners, the lowering and the
    cryptographic runtime are imported by the two modules and are not
    embedded: they are taken as parameters.  A method that mutates
    its receiver returns the receiver's new state next to its outcome.
    [World] is the state of the runtime (key sets, compiled libraries,
    randomness). *)
Class External : Type := {
  Inner : Type;
  ValueDescription : Type;
  Graph : Type;
  Bounds : Type;
  Body : Type;
  MlirModule : Type;
  MlirContext : Type;
  CompilationContext : Type;
  ClientSpecs : Type;
  ClientParameters : Type;
  Server : Type;
  Client : Type;
  Keys : Type;
  EvaluationKeys : Type;
  World : Type;

  (* tracing, fusing, bounds *)
  ValueDescription_of : Any Inner -> bool -> Result ValueDescription;
  iter_non_tuple : Any Inner -> Result (list (Any Inner));
  Tracer_trace :
    Callable Body -> list (string * ValueDescription) -> bool -> Result Graph;
  fuse : Graph -> Result unit * Graph * list (ArtifactEntry Graph);
  measure_bounds : Graph -> list (Any Inner) -> Result Bounds;
  update_with_bounds : Graph -> Bounds -> Result unit * Graph;
  Graph_call : Graph -> list (Any Inner) -> Result (Any Inner);
  AutoRounder_adjust : Body -> list (Any Inner) -> Result unit * Body;
  AutoTruncator_adjust : Body -> list (Any Inner) -> Result unit * Body;

  (* configuration and lowering *)
  Configuration_default : Configuration;
  Configuration_fork :
    Configuration -> list (string * Any Inner) -> Result Configuration;
  CompilationContext_new : CompilationContext;
  mlir_context : CompilationContext -> MlirContext;
  convert_many :
    list (string * Graph) -> Configuration -> MlirContext -> Result MlirModule;
  MlirModule_str : MlirModule -> string;

  (* runtime *)
  Server_create :
    MlirModule -> Configuration -> bool -> CompilationContext -> M World Server;
  Server_client_specs : Server -> ClientSpecs;
  Server_run :
    Server -> list (Any Inner) -> option EvaluationKeys -> string ->
    M World (Any Inner);
  Server_cleanup : Server -> M World unit;
  Client_new : ClientSpecs -> option string -> M World Client;
  Client_specs : Client -> ClientSpecs;
  Client_encrypt : Client -> list (Any Inner) -> string -> M World (Any Inner);
  Client_decrypt : Client -> list (Any Inner) -> string -> M World (Any Inner);
  Client_evaluation_keys : Client -> M World EvaluationKeys;
  Client_keys : Client -> M World Keys;
  Client_set_keys : Client -> Keys -> M World unit;
  Client_keygen : Client -> bool -> option Z -> option Z -> M World unit;
  client_parameters : ClientSpecs -> ClientParameters;
  ClientParameters_serialize : ClientParameters -> string;
  validate_input_args :
    ClientSpecs -> list (Any Inner) -> string -> Result (list (Any Inner));
  export_tensor :
    ClientParameters -> string -> nat -> list Z -> list Z -> Result Inner;
  export_scalar : ClientParameters -> string -> nat -> Z -> Result Inner;
  simulated_decrypt :
    ClientParameters -> string -> nat -> Inner -> Result (Any Inner)
}.

(** Python values of this program. *)
Definition PyAny `{External} : Type := Any Inner.

(** ** Strings: [repr], [str.lower] *)

Definition double_quote : ascii := ascii_of_nat 34.
Definition single_quote : ascii := "'"%char.
Definition backslash : ascii := ascii_of_nat 92.

Definition hex_digit (n : nat) : ascii :=
  nth n (list_ascii_of_string "0123456789abcdef") "0"%char.

Definition contains (c : ascii) (s : string) : bool :=
  existsb (Ascii.eqb c) (list_ascii_of_string s).

(** One character of [repr(s)] for a [str]: the quote and the backslash
    are escaped, control characters are written as escape sequences. *)
Definition repr_char (quote c : ascii) : string :=
  let n := nat_of_ascii c in
  if Ascii.eqb c quote || Ascii.eqb c backslash
  then String backslash (String c EmptyString)
  else if Nat.eqb n 9 then String backslash "t"
  else if Nat.eqb n 10 then String backslash "n"
  else if Nat.eqb n 13 then String backslash "r"
  else if Nat.ltb n 32 || Nat.eqb n 127
  then String backslash
         (String "x" (String (hex_digit (n / 16)) (String (hex_digit (n mod 16)) EmptyString)))
  else String c EmptyString.

(** [repr(s)]: double quotes are chosen when [s] holds a single quote and
    no double quote, single quotes otherwise. *)
Definition repr (s : string) : string :=
  let quote :=
    if contains single_quote s && negb (contains double_quote s)
    then double_quote else single_quote in
  String quote
    (String.concat EmptyString (map (repr_char quote) (list_ascii_of_string s))
     ++ String quote EmptyString).

Definition lower_char (c : ascii) : ascii :=
  let n := nat_of_ascii c in
  if Nat.leb 65 n && Nat.leb n 90 then ascii_of_nat (n + 32) else c.

(** [s.lower()] on ASCII text *)
Definition lower (s : string) : string :=
  string_of_list_ascii (map lower_char (list_ascii_of_string s)).

(** Modelled from the spec: [EncryptionStatus(value)], the constructor of
    the enumeration of [compiler.py] by value; the two statuses have the
    values ["clear"] and ["encrypted"], any other value is refused. *)
Definition EncryptionStatus_of (value : string) : Result EncryptionStatus :=
  if String.eqb value "clear" then Ok CLEAR
  else if String.eqb value "encrypted" then Ok ENCRYPTED
  else Raise (ValueError (repr value ++ " is not a valid EncryptionStatus")).

(** The statuses that [CircuitDef.__init__] accepts. *)
Definition valid_status (status : string) : bool :=
  is_ok (EncryptionStatus_of (lower status)).

(** A comprehension whose element expression may raise. *)
Fixpoint mapM {A B} (f : A -> Result B) (l : list A) : Result (list B) :=
  match l with
  | [] => Ok []
  | a :: l' =>
      match f a with
      | Raise e => Raise e
      | Ok b =>
          match mapM f l' with
          | Raise e => Raise e
          | Ok bs => Ok (b :: bs)
          end
      end
  end.

(** [l.remove(x)]: the first occurrence goes, [ValueError] when absent. *)
Fixpoint list_remove (x : string) (l : list string) : Result (list string) :=
  match l with
  | [] => Raise (ValueError "list.remove(x): x not in list")
  | y :: l' =>
      if String.eqb x y then Ok l'
      else match list_remove x l' with
           | Ok l'' => Ok (y :: l'')
           | Raise e => Raise e
           end
  end.

(** [for arg in keys: if arg in known: remaining.remove(arg)] *)
Fixpoint remove_known (keys known remaining : list string) : Result (list string) :=
  match keys with
  | [] => Ok remaining
  | arg :: keys' =>
      if mem arg known then
        match list_remove arg remaining with
        | Ok remaining' => remove_known keys' known remaining'
        | Raise e => Raise e
        end
      else remove_known keys' known remaining
  end.

(** The enumeration of names in the two messages of [CircuitDef.__init__]:
    [repr(args[0])], then [", " + repr(arg)] for [args[1:-1]], then
    [" and " + repr(args[-1])] when there is more than one. *)
Definition parameter_str (args : list string) : string :=
  let parameter_str := repr (hd EmptyString args) in
  let parameter_str :=
    fold_left (fun acc arg => acc ++ ", " ++ repr arg)
              (removelast (tl args)) parameter_str in
  if negb (Nat.eqb (List.length args) 1)
  then parameter_str ++ " and " ++ repr (last args EmptyString)
  else parameter_str.

Definition missing_message (function_name : string) (missing_args : list string) : string :=
  let many := Nat.ltb 1 (List.length missing_args) in
  "Encryption status" ++ (if many then "es" else EmptyString) ++ " "
  ++ "of parameter" ++ (if many then "s" else EmptyString) ++ " "
  ++ parameter_str missing_args ++ " of function '" ++ function_name ++ "' "
  ++ (if many then "are" else "is") ++ " not provided".

Definition additional_message (function_name : string) (additional_args : list string) : string :=
  let many := Nat.ltb 1 (List.length additional_args) in
  "Encryption status" ++ (if many then "es" else EmptyString) ++ " "
  ++ "of " ++ parameter_str additional_args ++ " "
  ++ (if many then "are" else "is") ++ " provided but "
  ++ (if many then "they are" else "it is") ++ " not a parameter "
  ++ "of function '" ++ function_name ++ "'".

(** The message of a sample of the wrong arity. *)
Definition malformed_message (index expected_len actual_len : nat) : string :=
  let expected :=
    if Nat.eqb expected_len 1 then "a single value"
    else "a tuple of " ++ str_of_nat expected_len ++ " values" in
  let actual :=
    if Nat.eqb actual_len 1 then "a single value"
    else "a tuple of " ++ str_of_nat actual_len ++ " values" in
  "Input #" ++ str_of_nat index ++ " of your inputset is not well formed "
  ++ "(expected " ++ expected ++ " got " ++ actual ++ ")".

Definition no_inputset_message (action function_name : string) : string :=
  action ++ " function '" ++ function_name ++ "' "
  ++ "without an inputset is not supported".

(** ** [program_compiler.py]: [CircuitDef] *)

Module CircuitDef.
Section WithExternal.
Context `{External}.
Local Open Scope monad_scope.

Record t : Type := {
  name : string;
  function : Callable Body;
  parameter_encryption_statuses : list (string * EncryptionStatus);
  inputset : list PyAny;
  graph : option Graph;
  artifacts : option (CircuitDebugArtifacts Graph);
  _is_direct : bool;
  _parameter_values : list (string * ValueDescription)
}.

Definition with_inputset (self : t) (inputset' : list PyAny) : t :=
  {| name := name self; function := function self;
     parameter_encryption_statuses := parameter_encryption_statuses self;
     inputset := inputset'; graph := graph self; artifacts := artifacts self;
     _is_direct := _is_direct self; _parameter_values := _parameter_values self |}.

Definition with_graph (self : t) (graph' : option Graph) : t :=
  {| name := name self; function := function self;
     parameter_encryption_statuses := parameter_encryption_statuses self;
     inputset := inputset self; graph := graph'; artifacts := artifacts self;
     _is_direct := _is_direct self; _parameter_values := _parameter_values self |}.

Definition with_artifacts (self : t) (artifacts' : option (CircuitDebugArtifacts Graph)) : t :=
  {| name := name self; function := function self;
     parameter_encryption_statuses := parameter_encryption_statuses self;
     inputset := inputset self; graph := graph self; artifacts := artifacts';
     _is_direct := _is_direct self; _parameter_values := _parameter_values self |}.

(** The auto tuners mutate the rounders and truncators of the function. *)
Definition with_body (self : t) (body' : Body) : t :=
  {| name := name self;
     function := {| __name__ := __name__ (function self);
                    parameters := parameters (function self);
                    body := body' |};
     parameter_encryption_statuses := parameter_encryption_statuses self;
     inputset := inputset self; graph := graph self; artifacts := artifacts self;
     _is_direct := _is_direct self; _parameter_values := _parameter_values self |}.

(** [CircuitDef.__init__(function, parameter_encryption_statuses)];
    the statuses are given as strings. *)
Definition __init__ (function : Callable Body)
    (parameter_encryption_statuses : list (string * string)) : Result t :=
  let signature_parameters := parameters function in
  let keys := map fst parameter_encryption_statuses in
  (missing_args <- remove_known keys signature_parameters signature_parameters ;;
   if negb (Nat.eqb (List.length missing_args) 0) then
     Raise (ValueError (missing_message (__name__ function) missing_args))
   else
     additional_args <- remove_known signature_parameters keys keys ;;
     if negb (Nat.eqb (List.length additional_args) 0) then
       Raise (ValueError (additional_message (__name__ function) additional_args))
     else
       statuses <-
         mapM (fun item : string * string =>
                 status <- EncryptionStatus_of (lower (snd item)) ;;
                 Ok (fst item, status))
              parameter_encryption_statuses ;;
       Ok {| name := __name__ function;
             function := function;
             parameter_encryption_statuses := statuses;
             inputset := [];
             graph := None;
             artifacts := None;
             _is_direct := false;
             _parameter_values := [] |})%result.

(** The arguments zipped with the statuses in [_trace]: the sample itself
    when there are several parameters or the sample is a tuple, the
    one-element tuple of the sample otherwise. *)
Definition sample_arguments (self : t) (sample : PyAny) : Result (list PyAny) :=
  if Nat.ltb 1 (List.length (parameter_encryption_statuses self)) || is_tuple sample
  then match sample with
       | PyTuple items => Ok items
       | _ => iter_non_tuple sample
       end
  else Ok [sample].

Definition trace_parameters (self : t) (sample : PyAny)
  : Result (list (string * ValueDescription)) :=
  (arguments <- sample_arguments self sample ;;
   mapM (fun item : PyAny * (string * EncryptionStatus) =>
           let '(arg, (param, status)) := item in
           description <-
             ValueDescription_of arg (EncryptionStatus_eqb status ENCRYPTED) ;;
           Ok (param, description))
        (combine arguments (parameter_encryption_statuses self)))%result.

Definition record_entries (entries : list (ArtifactEntry Graph)) (self : t) : t :=
  match artifacts self with
  | Some a => with_artifacts self (Some (a ++ entries)%list)
  | None => self
  end.

(** [CircuitDef._trace(sample)] *)
Definition _trace (sample : PyAny) : M t unit :=
  self <~ get ;;
  modify (record_entries
            (SourceCode (__name__ (function self))
             :: map (fun item : string * EncryptionStatus =>
                       ParameterEncryptionStatus (fst item) (snd item))
                    (parameter_encryption_statuses self))) ;;;
  parameters <~ lift (trace_parameters self sample) ;;
  g <~ lift (Tracer_trace (function self) parameters false) ;;
  modify (fun self => with_graph self (Some g)) ;;;
  modify (record_entries [GraphSnapshot "initial" g]) ;;;
  let '(outcome, fused, entries) := fuse g in
  modify (fun self => record_entries entries (with_graph self (Some fused))) ;;;
  lift outcome.

(** The loop of [_evaluate] over [enumerate(iter(inputset))], from [index]
    on. *)
Fixpoint extend_inputset (previous_inputset_length index : nat)
    (samples : list PyAny) : M t unit :=
  match samples with
  | [] => ret tt
  | sample :: samples' =>
      modify (fun self => with_inputset self (inputset self ++ [sample])%list) ;;;
      self <~ get ;;
      let sample := as_tuple sample in
      if negb (Nat.eqb (List.length sample)
                       (List.length (parameter_encryption_statuses self))) then
        put (with_inputset self (firstn previous_inputset_length (inputset self))) ;;;
        raise (ValueError
                 (malformed_message index
                    (List.length (parameter_encryption_statuses self))
                    (List.length sample)))
      else extend_inputset previous_inputset_length (S index) samples'
  end.

(** The state of a call of [_evaluate]: the circuit definition and the
    artifacts object passed to the call. *)
Definition Frame : Type := (t * CircuitDebugArtifacts Graph)%type.

Definition on_self {A} (m : M t A) : M Frame A :=
  zoom fst (fun frame self => (self, snd frame)) m.

Definition add_graph (stage : string) (g : Graph) : M Frame unit :=
  modify (fun frame : Frame => (fst frame, (snd frame ++ [GraphSnapshot stage g])%list)).

Definition adjust (tuner : Body -> list PyAny -> Result unit * Body) : M t unit :=
  self <~ get ;;
  let (outcome, body') := tuner (body (function self)) (inputset self) in
  put (with_body self body') ;;;
  lift outcome.

(** Ensure [self.graph] exists, tracing with the first sample. *)
Definition ensure_graph (action : string) : M t Graph :=
  self <~ get ;;
  match graph self with
  | Some g => ret g
  | None =>
      match inputset self with
      | [] =>
          raise (RuntimeError
                   (no_inputset_message action (__name__ (function self))))
      | first_sample :: _ =>
          _trace first_sample ;;;
          self <~ get ;;
          match graph self with
          | Some g => ret g
          | None => raise AssertionError
          end
      end
  end.

(** The two auto tuners of [_evaluate], each behind its option. *)
Definition auto_adjust (configuration : Configuration) : M t unit :=
  (if auto_adjust_rounders configuration
   then adjust AutoRounder_adjust else ret tt) ;;;
  (if auto_adjust_truncators configuration
   then adjust AutoTruncator_adjust else ret tt).

(** [_evaluate] once the inputset is extended: tune, trace if there is no
    graph, measure the bounds and update the graph with them. *)
Definition measure_and_update (action : string) (configuration : Configuration)
  : M Frame unit :=
  on_self (auto_adjust configuration) ;;;
  g <~ on_self (ensure_graph action) ;;
  frame <~ get ;;
  bounds <~ lift (measure_bounds g (inputset (fst frame))) ;;
  let (outcome, updated) := update_with_bounds g bounds in
  on_self (modify (fun self => with_graph self (Some updated))) ;;;
  lift outcome ;;;
  add_graph "final" updated.

(** [CircuitDef._evaluate(action, inputset, configuration, artifacts)];
    [new_inputset] is the [inputset] argument, [artifacts] is the second
    component of the frame. *)
Definition _evaluate (action : string) (new_inputset : option (list PyAny))
    (configuration : Configuration) : M Frame unit :=
  frame <~ get ;;
  let self := fst frame in
  if _is_direct self then
    g <~ lift (Tracer_trace (function self) (_parameter_values self) true) ;;
    on_self (modify (fun self => with_graph self (Some g))) ;;;
    add_graph "initial" g ;;;
    let '(outcome, fused, entries) := fuse g in
    modify (fun frame : Frame =>
              (with_graph (fst frame) (Some fused), (snd frame ++ entries)%list)) ;;;
    lift outcome ;;;
    add_graph "final" fused
  else
    match new_inputset with
    | Some samples =>
        on_self (extend_inputset (List.length (inputset self)) 0 samples)
    | None => ret tt
    end ;;;
    measure_and_update action configuration.

(** [CircuitDef.__call__], on its positional and keyword arguments *)
Definition __call__ (args : list PyAny) (kwargs : list (string * PyAny)) : M t PyAny :=
  self <~ get ;;
  if negb (Nat.eqb (List.length kwargs) 0) then
    raise (RuntimeError
             ("Calling function '" ++ __name__ (function self)
              ++ "' with kwargs is not supported"))
  else
    let sample := match args with [arg] => arg | _ => PyTuple args end in
    g <~ match graph self with
         | Some g => ret g
         | None =>
             _trace sample ;;;
             self <~ get ;;
             match graph self with
             | Some g => ret g
             | None => raise AssertionError
             end
         end ;;
    modify (fun self => with_inputset self (inputset self ++ [sample])%list) ;;;
    lift (Graph_call g args).

(** No method sets [_is_direct]: a circuit definition is not direct. *)
Definition not_direct (self : t) : Prop := _is_direct self = false.

(** The samples passed to a call of [_evaluate]. *)
Definition passed (new_inputset : option (list PyAny)) : list PyAny :=
  match new_inputset with
  | Some samples => samples
  | None => []
  end.

(** What the graph computed by [_evaluate] is a function of: the function,
    the encryption statuses, the accumulated inputset and the graph. *)
Definition agree (a b : t) : Prop :=
  function a = function b
  /\ parameter_encryption_statuses a = parameter_encryption_statuses b
  /\ inputset a = inputset b
  /\ graph a = graph b.

Definition agree_frames (f1 f2 : Frame) : Prop := agree (fst f1) (fst f2).

End WithExternal.
End CircuitDef.

(** ** [program.py] *)

Section Runtime.
Context `{External}.

(** [ExecutionRt] and [SimulationRt], the two values of [rt]. *)
Inductive Rt : Type :=
| ExecutionRt (client : Client) (server : Server)
| SimulationRt (server : Server).

(** [isinstance(rt, ExecutionRt)] and [isinstance(rt, SimulationRt)] *)
Definition is_ExecutionRt (rt : Rt) : bool :=
  match rt with ExecutionRt _ _ => true | SimulationRt _ => false end.

Definition is_SimulationRt (rt : Rt) : bool :=
  match rt with ExecutionRt _ _ => false | SimulationRt _ => true end.

(** [rt.server] and [rt.client] *)
Definition Rt_server (rt : Rt) : Server :=
  match rt with ExecutionRt _ server => server | SimulationRt server => server end.

Definition Rt_client (rt : Rt) : Result Client :=
  match rt with
  | ExecutionRt client _ => Ok client
  | SimulationRt _ =>
      Raise (AttributeError "'SimulationRt' object has no attribute 'client'")
  end.

End Runtime.

Module ProgramCircuit.
Section WithExternal.
Context `{External}.
Local Open Scope monad_scope.

Record t : Type := {
  name : string;
  rt : Rt;
  graph : Graph
}.

(** One element of the list [exported] of [simulate]. *)
Definition export_argument (self : t) (position : nat) (arg : PyAny) : Result PyAny :=
  let parameters := client_parameters (Server_client_specs (Rt_server (rt self))) in
  match arg with
  | PyNone => Ok PyNone
  | PyArray (_ :: _ as shape) flat =>
      (inner <- export_tensor parameters (name self) position flat shape ;;
       Ok (PyValue inner))%result
  | _ =>
      (n <- py_int arg ;;
       inner <- export_scalar parameters (name self) position n ;;
       Ok (PyValue inner))%result
  end.

(** [ProgramCircuit.simulate] on its positional arguments *)
Definition simulate (self : t) (args : list PyAny) : M World PyAny :=
  assert (is_SimulationRt (rt self)) ;;;
  let server := Rt_server (rt self) in
  let specs := Server_client_specs server in
  ordered_validated_args <~ lift (validate_input_args specs args (name self)) ;;
  exported <~
    lift (mapM (fun item : nat * PyAny => export_argument self (fst item) (snd item))
               (enumerate ordered_validated_args)) ;;
  results <~ Server_run server exported None (name self) ;;
  let results := as_tuple results in
  decrypted <~
    lift (mapM (fun item : nat * PyAny =>
                  (inner <- value_inner (snd item) ;;
                   simulated_decrypt (client_parameters specs) (name self)
                                     (fst item) inner)%result)
               (enumerate results)) ;;
  ret (match decrypted with
       | [single] => single
       | _ => PyTuple decrypted
       end).

(** [ProgramCircuit.encrypt] *)
Definition encrypt (self : t) (args : list PyAny) : M World PyAny :=
  assert (is_ExecutionRt (rt self)) ;;;
  client <~ lift (Rt_client (rt self)) ;;
  Client_encrypt client args (name self).

(** [ProgramCircuit.run] *)
Definition run (self : t) (args : list PyAny) : M World PyAny :=
  assert (is_ExecutionRt (rt self)) ;;;
  client <~ lift (Rt_client (rt self)) ;;
  evaluation_keys <~ Client_evaluation_keys client ;;
  Server_run (Rt_server (rt self)) args (Some evaluation_keys) (name self).

(** [ProgramCircuit.decrypt] *)
Definition decrypt (self : t) (results : list PyAny) : M World PyAny :=
  assert (is_ExecutionRt (rt self)) ;;;
  client <~ lift (Rt_client (rt self)) ;;
  Client_decrypt client results (name self).

(** [ProgramCircuit.encrypt_run_decrypt]:
    [return self.decrypt(self.run(self.encrypt( *args)))] *)
Definition encrypt_run_decrypt (self : t) (args : list PyAny) : M World PyAny :=
  encrypted <~ encrypt self args ;;
  evaluated <~ run self [encrypted] ;;
  decrypt self [evaluated].

(** The three calls made one after the other by a caller, each on the
    runtime state left by the one before: what the specification compares
    [encrypt_run_decrypt] with. *)
Definition composed_by_hand (self : t) (args : list PyAny)
  : World -> Result PyAny * World :=
  fun w0 =>
    match encrypt self args w0 with
    | (Raise e, w1) => (Raise e, w1)
    | (Ok encrypted, w1) =>
        match run self [encrypted] w1 with
        | (Raise e, w2) => (Raise e, w2)
        | (Ok evaluated, w2) => decrypt self [evaluated] w2
        end
    end.

End WithExternal.
End ProgramCircuit.

Module Program.
Section WithExternal.
Context `{External}.
Local Open Scope monad_scope.

Record t : Type := {
  configuration : Configuration;
  graphs : list (string * Graph);
  mlir_module : MlirModule;
  compilation_context : CompilationContext;
  rt : Rt
}.

(** Modelled from the spec: [assert_that] of [internal/utils.py], which is
    not among the files embedded here; section 7 counts an
    unsafe-feature-gated option requested without the gate among the
    configuration errors, the helper asserts its condition. *)
Definition assert_that (condition : bool) : M World unit := assert condition.

Definition is_some {A} (o : option A) : bool :=
  match o with Some _ => true | None => false end.

(** [Program.__init__(graphs, mlir, compilation_context, configuration)] *)
Definition __init__ (graphs : list (string * Graph)) (mlir : MlirModule)
    (compilation_context : CompilationContext)
    (configuration : option Configuration) : M World t :=
  assert (match configuration with
          | Some c => fhe_simulation c || fhe_execution c
          | None => false
          end) ;;;
  let configuration :=
    match configuration with Some c => c | None => Configuration_default end in
  if fhe_simulation configuration then
    server <~ Server_create mlir configuration true compilation_context ;;
    ret {| configuration := configuration; graphs := graphs; mlir_module := mlir;
           compilation_context := compilation_context;
           rt := SimulationRt server |}
  else
    server <~ Server_create mlir configuration false compilation_context ;;
    keyset_cache_directory <~
      (if use_insecure_key_cache configuration then
         assert_that (enable_unsafe_features configuration) ;;;
         assert_that (is_some (insecure_key_cache_location configuration)) ;;;
         ret (insecure_key_cache_location configuration)
       else ret None) ;;
    client <~ Client_new (Server_client_specs server) keyset_cache_directory ;;
    ret {| configuration := configuration; graphs := graphs; mlir_module := mlir;
           compilation_context := compilation_context;
           rt := ExecutionRt client server |}.

(** [Program.mlir] *)
Definition mlir (self : t) : string := MlirModule_str (mlir_module self).

(** [Program.keys], getter and setter *)
Definition keys (self : t) : M World (option Keys) :=
  match rt self with
  | ExecutionRt client _ => k <~ Client_keys client ;; ret (Some k)
  | SimulationRt _ => ret None
  end.

Definition set_keys (self : t) (new_keys : Keys) : M World unit :=
  match rt self with
  | ExecutionRt client _ => Client_set_keys client new_keys
  | SimulationRt _ => ret tt
  end.

(** [Program.keygen(force, seed, encryption_seed)] *)
Definition keygen (self : t) (force : bool) (seed encryption_seed : option Z)
  : M World unit :=
  match rt self with
  | ExecutionRt client _ => Client_keygen client force seed encryption_seed
  | SimulationRt _ => ret tt
  end.

(** [Program.cleanup()] *)
Definition cleanup (self : t) : M World unit :=
  Server_cleanup (Rt_server (rt self)).

(** [Program.__getattr__(item)] *)
Definition __getattr__ (self : t) (item : string) : Result ProgramCircuit.t :=
  if negb (mem item (map fst (graphs self))) then
    Raise (AttributeError ("No attribute " ++ item))
  else
    (g <- dict_item (graphs self) item ;;
     Ok {| ProgramCircuit.name := item;
           ProgramCircuit.rt := rt self;
           ProgramCircuit.graph := g |})%result.

(** [Program.circuits()] *)
Definition circuits (self : t) : Result (list (string * ProgramCircuit.t)) :=
  mapM (fun name : string =>
          (circuit <- __getattr__ self name ;; Ok (name, circuit))%result)
       (map fst (graphs self)).

End WithExternal.
End Program.

(** ** [program_compiler.py]: [ProgramCompiler] *)

Module ProgramCompiler.
Section WithExternal.
Context `{External}.
Local Open Scope monad_scope.

(** The instance attributes set by [__init__]; [default_configuration] is
    only annotated in the class body and is no attribute of an instance.
    Distinct names hold distinct [CircuitDef] objects. *)
Record t : Type := {
  configuration : Configuration;
  circuits : list (string * CircuitDef.t);
  compilation_context : CompilationContext
}.

(** [self.configuration], where a local variable is named [configuration] *)
Definition self_configuration (self : t) : Configuration := configuration self.

Definition with_circuits (self : t) (circuits' : list (string * CircuitDef.t)) : t :=
  {| configuration := configuration self; circuits := circuits';
     compilation_context := compilation_context self |}.

(** [Configuration(composable=True)] *)
Definition composable_configuration : Configuration :=
  let d := Configuration_default in
  {| fhe_simulation := fhe_simulation d;
     fhe_execution := fhe_execution d;
     composable := true;
     auto_adjust_rounders := auto_adjust_rounders d;
     auto_adjust_truncators := auto_adjust_truncators d;
     use_insecure_key_cache := use_insecure_key_cache d;
     enable_unsafe_features := enable_unsafe_features d;
     insecure_key_cache_location := insecure_key_cache_location d;
     dump_artifacts_on_unexpected_failures :=
       dump_artifacts_on_unexpected_failures d |}.

(** [ProgramCompiler.__init__(circuits)] *)
Definition __init__ (circuits : list (string * CircuitDef.t)) : t :=
  {| configuration := composable_configuration;
     circuits := circuits;
     compilation_context := CompilationContext_new |}.

(** [ProgramCompiler.__getattr__(item)], called for a name that is no
    attribute of the instance. *)
Definition __getattr__ (self : t) (item : string) : Result CircuitDef.t :=
  if negb (mem item (map fst (circuits self))) then
    Raise (AttributeError ("No attribute " ++ item))
  else dict_item (circuits self) item.

(** The object bound to the local variable [configuration] of [compile]:
    the attribute lookup of the fallback may return a circuit definition. *)
Inductive ConfigurationObject : Type :=
| IsConfiguration (c : Configuration)
| IsCircuitDef (c : CircuitDef.t).

(** [configuration.fork( **kwargs)] *)
Definition fork (configuration : ConfigurationObject) (kwargs : list (string * PyAny))
  : Result ConfigurationObject :=
  match configuration with
  | IsConfiguration c =>
      (c' <- Configuration_fork c kwargs ;; Ok (IsConfiguration c'))%result
  | IsCircuitDef _ =>
      Raise (AttributeError "'CircuitDef' object has no attribute 'fork'")
  end.

(** The first lines of [compile], up to the last rebinding of
    [configuration]; [deepcopy] returns an equal value. *)
Definition effective_configuration (self : t) (configuration : option Configuration)
    (kwargs : list (string * PyAny)) : Result ConfigurationObject :=
  (configuration <-
     match configuration with
     | Some c => Ok (IsConfiguration c)
     | None =>
         (* [self.default_configuration] *)
         circuit <- __getattr__ self "default_configuration" ;;
         Ok (IsCircuitDef circuit)
     end ;;
   if negb (Nat.eqb (List.length kwargs) 0)
   then fork configuration kwargs
   else Ok configuration)%result.

(** What a call of [compile] reads and mutates: the compiler with its
    circuit definitions, the artifacts object ([None] until the caller's or
    a fresh one is bound), the runtime. *)
Record Session : Type := {
  compiler : t;
  program_artifacts : option (ProgramDebugArtifacts Graph);
  world : World
}.

Definition with_compiler (s : Session) (c : t) : Session :=
  {| compiler := c; program_artifacts := program_artifacts s; world := world s |}.

Definition with_program_artifacts (s : Session)
    (a : option (ProgramDebugArtifacts Graph)) : Session :=
  {| compiler := compiler s; program_artifacts := a; world := world s |}.

Definition with_world (s : Session) (w : World) : Session :=
  {| compiler := compiler s; program_artifacts := program_artifacts s; world := w |}.

(** [ProgramDebugArtifacts(names)] *)
Definition new_program_artifacts (names : list string) : ProgramDebugArtifacts Graph :=
  {| pa_circuits := map (fun name : string => (name, [])) names;
     pa_mlir_to_compile := None;
     pa_client_parameters := None;
     pa_exported := false |}.

Definition the_artifacts (s : Session) : ProgramDebugArtifacts Graph :=
  match program_artifacts s with
  | Some a => a
  | None => new_program_artifacts (map fst (circuits (compiler s)))
  end.

Definition update_artifacts
    (f : ProgramDebugArtifacts Graph -> ProgramDebugArtifacts Graph) : M Session unit :=
  modify (fun s => with_program_artifacts s (Some (f (the_artifacts s)))).

Definition set_circuit_artifacts (name : string) (a : CircuitDebugArtifacts Graph)
    (p : ProgramDebugArtifacts Graph) : ProgramDebugArtifacts Graph :=
  {| pa_circuits := dict_set (pa_circuits p) name a;
     pa_mlir_to_compile := pa_mlir_to_compile p;
     pa_client_parameters := pa_client_parameters p;
     pa_exported := pa_exported p |}.

(** [program_artifacts.add_mlir_to_compile(mlir_str)] *)
Definition add_mlir_to_compile (mlir_str : string)
    (p : ProgramDebugArtifacts Graph) : ProgramDebugArtifacts Graph :=
  {| pa_circuits := pa_circuits p;
     pa_mlir_to_compile := Some mlir_str;
     pa_client_parameters := pa_client_parameters p;
     pa_exported := pa_exported p |}.

(** [program_artifacts.add_client_parameters(serialized)] *)
Definition add_client_parameters (serialized : string)
    (p : ProgramDebugArtifacts Graph) : ProgramDebugArtifacts Graph :=
  {| pa_circuits := pa_circuits p;
     pa_mlir_to_compile := pa_mlir_to_compile p;
     pa_client_parameters := Some serialized;
     pa_exported := pa_exported p |}.

(** [program_artifacts.export()] *)
Definition export (p : ProgramDebugArtifacts Graph) : ProgramDebugArtifacts Graph :=
  {| pa_circuits := pa_circuits p;
     pa_mlir_to_compile := pa_mlir_to_compile p;
     pa_client_parameters := pa_client_parameters p;
     pa_exported := true |}.

(** [inputsets[name]] *)
Definition inputsets_item (inputsets : option (list (string * list PyAny)))
    (name : string) : Result (list PyAny) :=
  match inputsets with
  | None => Raise (TypeError "'NoneType' object is not subscriptable")
  | Some d => dict_item d name
  end.

(** The first loop of [compile]: trace and fuse the circuits, over the
    items of [self.circuits] still to visit. *)
Fixpoint evaluate_circuits (inputsets : option (list (string * list PyAny)))
    (items : list (string * CircuitDef.t)) : M Session unit :=
  match items with
  | [] => ret tt
  | (name, circuit) :: items' =>
      inputset <~ lift (inputsets_item inputsets name) ;;
      s <~ get ;;
      circuit_artifacts <~ lift (dict_item (pa_circuits (the_artifacts s)) name) ;;
      let '(outcome, (circuit', circuit_artifacts')) :=
        CircuitDef._evaluate "Compiling" (Some inputset)
          (configuration (compiler s)) (circuit, circuit_artifacts) in
      modify (fun s =>
                with_compiler s
                  (with_circuits (compiler s)
                     (dict_set (circuits (compiler s)) name circuit'))) ;;;
      update_artifacts (set_circuit_artifacts name circuit_artifacts') ;;;
      lift outcome ;;;
      assert (Program.is_some (CircuitDef.graph circuit')) ;;;
      evaluate_circuits inputsets items'
  end.

(** [{name: circuit.graph for (name, circuit) in self.circuits.items()}];
    the assertion of the first loop has found every graph. *)
Definition circuit_graphs (circuits : list (string * CircuitDef.t))
  : Result (list (string * Graph)) :=
  mapM (fun item : string * CircuitDef.t =>
          match CircuitDef.graph (snd item) with
          | Some g => Ok (fst item, g)
          | None => Raise AssertionError
          end)
       circuits.

Definition on_world {A} (m : M World A) : M Session A :=
  zoom world with_world m.

(** The body of the [try] statement of [compile]; the debug manager only
    prints and is left out. *)
Definition compile_body (inputsets : option (list (string * list PyAny)))
    (configuration : Configuration) : M Session Program.t :=
  s <~ get ;;
  evaluate_circuits inputsets (circuits (compiler s)) ;;;
  s <~ get ;;
  let self := compiler s in
  let mlir_context := mlir_context (compilation_context self) in
  graphs <~ lift (circuit_graphs (circuits self)) ;;
  mlir_module <~
    lift (convert_many graphs (self_configuration self) mlir_context) ;;
  update_artifacts (add_mlir_to_compile (MlirModule_str mlir_module)) ;;;
  output <~
    on_world (Program.__init__ graphs mlir_module (compilation_context self)
                               (Some configuration)) ;;
  match Program.rt output with
  | ExecutionRt client _ =>
      update_artifacts
        (add_client_parameters
           (ClientParameters_serialize (client_parameters (Client_specs client))))
  | SimulationRt _ => ret tt
  end ;;;
  ret output.

(** [ProgramCompiler.compile(inputsets, configuration, program_artifacts,
    kwargs)]; the session starts with the caller's [program_artifacts]. *)
Definition compile (inputsets : option (list (string * list PyAny)))
    (configuration : option Configuration)
    (kwargs : list (string * PyAny)) : M Session Program.t :=
  s <~ get ;;
  let self := compiler s in
  configuration <~ lift (effective_configuration self configuration kwargs) ;;
  match configuration with
  | IsCircuitDef _ =>
      (* [configuration.composable] on a circuit definition *)
      raise (AttributeError "'CircuitDef' object has no attribute 'composable'")
  | IsConfiguration configuration =>
      if negb (composable configuration) then
        raise (RuntimeError "Programs can only be compiled with `composable` activated.")
      else
        (* the caller's artifacts, or fresh ones *)
        update_artifacts (fun a => a) ;;;
        try_except
          (compile_body inputsets configuration)
          (fun e =>
             (if dump_artifacts_on_unexpected_failures (self_configuration self)
              then update_artifacts export else ret tt) ;;;
             raise e)
  end.

End WithExternal.
End ProgramCompiler.

(** ** A small instance of the collaborators

    It is used to run the definitions on concrete inputs.  A graph is the
    name of the traced function with the bit width assigned to its output;
    the bounds are the least and the greatest integer sample; a server is
    its simulation flag; encryption wraps an integer into a [Value]; the
    world counts the calls to the runtime. *)

Module Toy.

Local Open Scope Z_scope.

Definition sample_value (sample : Any Z) : Z :=
  match sample with
  | PyInt n => n
  | PyTuple (PyInt n :: _) => n
  | _ => 0
  end.

Definition toy_measure_bounds (samples : list (Any Z)) : Result (Z * Z) :=
  match samples with
  | [] => Raise (ValueError "no sample")
  | first :: others =>
      Ok (fold_left (fun b s => (Z.min (fst b) (sample_value s),
                                 Z.max (snd b) (sample_value s)))
                    others (sample_value first, sample_value first))
  end.

Definition toy_bit_width (bounds : Z * Z) : nat :=
  Z.to_nat (Z.log2_up (snd bounds + 1)).

Definition wrap (x : Any Z) : Any Z :=
  match x with PyInt n => PyValue n | _ => x end.

Definition unwrap (x : Any Z) : Any Z :=
  match x with PyValue n => PyInt n | _ => x end.

Definition single (f : Any Z -> Any Z) (args : list (Any Z)) : Any Z :=
  match args with
  | [x] => f x
  | _ => PyTuple (map f args)
  end.

Definition tick {A} (a : A) : M nat A := fun w => (Ok a, S w).

Definition toy_configuration : Configuration :=
  {| fhe_simulation := false;
     fhe_execution := true;
     composable := false;
     auto_adjust_rounders := false;
     auto_adjust_truncators := false;
     use_insecure_key_cache := false;
     enable_unsafe_features := false;
     insecure_key_cache_location := None;
     dump_artifacts_on_unexpected_failures := false |}.

#[export] Instance toy : External := {|
  Inner := Z;
  ValueDescription := bool;
  Graph := string * nat;
  Bounds := Z * Z;
  Body := unit;
  MlirModule := list string;
  MlirContext := unit;
  CompilationContext := unit;
  ClientSpecs := unit;
  ClientParameters := unit;
  Server := bool;
  Client := unit;
  Keys := nat;
  EvaluationKeys := nat;
  World := nat;
  ValueDescription_of := fun _ is_encrypted => Ok is_encrypted;
  iter_non_tuple := fun x =>
    Raise (TypeError ("'" ++ type_name x ++ "' object is not iterable"));
  Tracer_trace := fun f _ _ => Ok (__name__ f, 0%nat);
  fuse := fun g => (Ok tt, g, []);
  measure_bounds := fun _ samples => toy_measure_bounds samples;
  update_with_bounds := fun g bounds => (Ok tt, (fst g, toy_bit_width bounds));
  Graph_call := fun _ args => Ok (PyTuple args);
  AutoRounder_adjust := fun b _ => (Ok tt, b);
  AutoTruncator_adjust := fun b _ => (Ok tt, b);
  Configuration_default := toy_configuration;
  Configuration_fork := fun c _ => Ok c;
  CompilationContext_new := tt;
  mlir_context := fun _ => tt;
  convert_many := fun graphs _ _ => Ok (map fst graphs);
  MlirModule_str := fun m => String.concat " " m;
  Server_create := fun _ _ is_simulated _ => tick is_simulated;
  Server_client_specs := fun _ => tt;
  Server_run := fun _ args _ _ => tick (single (fun x => x) args);
  Server_cleanup := fun _ => tick tt;
  Client_new := fun _ _ => tick tt;
  Client_specs := fun _ => tt;
  Client_encrypt := fun _ args _ => tick (single wrap args);
  Client_decrypt := fun _ results _ => tick (single unwrap results);
  Client_evaluation_keys := fun _ => tick 0%nat;
  Client_keys := fun _ => tick 0%nat;
  Client_set_keys := fun _ _ => tick tt;
  Client_keygen := fun _ _ _ _ => tick tt;
  client_parameters := fun _ => tt;
  ClientParameters_serialize := fun _ => "parameters";
  validate_input_args := fun _ args _ => Ok args;
  export_tensor := fun _ _ _ flat _ => Ok (hd 0 flat);
  export_scalar := fun _ _ _ n => Ok n;
  simulated_decrypt := fun _ _ _ inner => Ok (PyInt inner)
|}.


Definition both_modes : Configuration :=
  {| fhe_simulation := true;
     fhe_execution := true;
     composable := true;
     auto_adjust_rounders := false;
     auto_adjust_truncators := false;
     use_insecure_key_cache := false;
     enable_unsafe_features := false;
     insecure_key_cache_location := None;
     dump_artifacts_on_unexpected_failures := false |}.

Definition execution_only : Configuration :=
  {| fhe_simulation := false;
     fhe_execution := true;
     composable := true;
     auto_adjust_rounders := false;
     auto_adjust_truncators := false;
     use_insecure_key_cache := false;
     enable_unsafe_features := false;
     insecure_key_cache_location := None;
     dump_artifacts_on_unexpected_failures := false |}.

(** [def square(x)] and [def add_sub(x, y)] of the tests *)
Definition square : Callable unit :=
  {| __name__ := "square"; parameters := ["x"]; body := tt |}.

Definition add_sub : Callable unit :=
  {| __name__ := "add_sub"; parameters := ["x"; "y"]; body := tt |}.

(** The circuit definition of [square] with [x] encrypted, after the
    samples [seen]. *)
Definition square_def (seen : list (Any Z)) : CircuitDef.t :=
  {| CircuitDef.name := "square";
     CircuitDef.function := square;
     CircuitDef.parameter_encryption_statuses := [("x", ENCRYPTED)];
     CircuitDef.inputset := seen;
     CircuitDef.graph := None;
     CircuitDef.artifacts := None;
     CircuitDef._is_direct := false;
     CircuitDef._parameter_values := [] |}.

(** An inputset for [square] whose second sample is a pair. *)
Definition second_is_a_pair : list (Any Z) :=
  [PyInt 3; PyTuple [PyInt 1; PyInt 2]].

Definition session : ProgramCompiler.Session :=
  {| ProgramCompiler.compiler := ProgramCompiler.__init__ [("square", square_def [])];
     ProgramCompiler.program_artifacts := None;
     ProgramCompiler.world := 0%nat |}.

Definition square_circuit (rt : Rt) : ProgramCircuit.t :=
  {| ProgramCircuit.name := "square";
     ProgramCircuit.rt := rt;
     ProgramCircuit.graph := ("square", 5%nat) |}.

End Toy.

(** ** [program_compiler.py]: [DebugManager] *)

Module DebugManager.

Local Open Scope monad_scope.

(** Modelled from the spec: the debug-display toggles of the configuration
    (section 3), each one unset or a boolean, and [verbose];
    [configuration.py] is not among the files embedded here. *)
Module Options.
Record t : Type := {
  verbose : bool;
  show_graph : option bool;
  show_bit_width_constraints : option bool;
  show_bit_width_assignments : option bool;
  show_assigned_graph : option bool;
  show_mlir : option bool;
  show_optimizer : option bool;
  show_statistics : option bool
}.
End Options.

(** What the manager writes to and remembers: the text printed so far and
    the flag [is_first] captured by [begin_call]. *)
Record Console : Type := {
  is_first : bool;
  stdout : string
}.

Definition newline : string := String (ascii_of_nat 10) EmptyString.

(** [print(text)] *)
Definition print (text : string) : M Console unit :=
  modify (fun c => {| is_first := is_first c;
                      stdout := stdout c ++ text ++ newline |}).

(** ["-" * columns] *)
Fixpoint rule (columns : nat) : string :=
  match columns with
  | O => EmptyString
  | S n => String "-"%char (rule n)
  end.

(** [begin_call()] *)
Definition begin_call : M Console unit :=
  c <~ get ;;
  if is_first c then
    print EmptyString ;;;
    modify (fun c => {| is_first := false; stdout := stdout c |})
  else ret tt.

(** The two context managers of [debug_table]. *)
Inductive ContextManager : Type :=
| DebugTableCm (title : string) (columns : nat)
| EmptyCm.

Definition __enter__ (cm : ContextManager) : M Console unit :=
  match cm with
  | DebugTableCm title columns => print title ;;; print (rule columns)
  | EmptyCm => ret tt
  end.

Definition __exit__ (cm : ContextManager) : M Console unit :=
  match cm with
  | DebugTableCm title columns => print (rule columns) ;;; print EmptyString
  | EmptyCm => ret tt
  end.

(** [with manager: body]: [__exit__] runs whether the body returns or
    raises, and returns [None], so the exception of the body goes on. *)
Definition with_ {A} (manager : M Console ContextManager) (body : M Console A)
  : M Console A :=
  cm <~ manager ;;
  __enter__ cm ;;;
  fun c => let (outcome, c') := body c in
           let (_, c'') := __exit__ cm c' in
           (outcome, c'').

Section WithGraph.

(** The graph with its formatting methods, and the width of the terminal
    that [get_terminal_size()] returns. *)
Variable Graph : Type.
Variable format : Graph -> string.
Variable format_bit_width_constraints : Graph -> string.
Variable format_bit_width_assignments : Graph -> string.
Variable format_assigned : Graph -> string.
Variable columns : nat.

Definition or_verbose (self : Options.t) (option : option bool) : bool :=
  match option with
  | Some shown => shown
  | None => Options.verbose self
  end.

Definition show_graph (self : Options.t) : bool :=
  or_verbose self (Options.show_graph self).

Definition show_bit_width_constraints (self : Options.t) : bool :=
  or_verbose self (Options.show_bit_width_constraints self).

Definition show_bit_width_assignments (self : Options.t) : bool :=
  or_verbose self (Options.show_bit_width_assignments self).

Definition show_assigned_graph (self : Options.t) : bool :=
  or_verbose self (Options.show_assigned_graph self).

Definition show_mlir (self : Options.t) : bool :=
  or_verbose self (Options.show_mlir self).

Definition show_optimizer (self : Options.t) : bool :=
  or_verbose self (Options.show_optimizer self).

Definition show_statistics (self : Options.t) : bool :=
  or_verbose self (Options.show_statistics self).

(** [debug_table(title, activate)] *)
Definition debug_table (title : string) (activate : bool) : M Console ContextManager :=
  if activate then
    begin_call ;;;
    ret (DebugTableCm title columns)
  else ret EmptyCm.

(** [debug_computation_graph(name, circuit_graph)] *)
Definition debug_computation_graph (self : Options.t) (name : string)
    (circuit_graph : Graph) : M Console unit :=
  if show_graph self
     || show_bit_width_constraints self
     || show_bit_width_assignments self
     || show_assigned_graph self
     || show_mlir self
     || show_optimizer self
     || show_statistics self
  then
    if show_graph self then
      with_ (debug_table ("Computation Graph for " ++ name) true)
            (print (format circuit_graph))
    else ret tt
  else ret tt.

(** [debug_bit_width_constaints(name, circuit_graph)] *)
Definition debug_bit_width_constaints (self : Options.t) (name : string)
    (circuit_graph : Graph) : M Console unit :=
  if show_bit_width_constraints self then
    with_ (debug_table ("Bit-Width Constraints for " ++ name) true)
          (print (format_bit_width_constraints circuit_graph))
  else ret tt.

(** [debug_bit_width_assignments(name, circuit_graph)] *)
Definition debug_bit_width_assignments (self : Options.t) (name : string)
    (circuit_graph : Graph) : M Console unit :=
  if show_bit_width_assignments self then
    with_ (debug_table ("Bit-Width Assignments for " ++ name) true)
          (print (format_bit_width_assignments circuit_graph))
  else ret tt.

(** [debug_assigned_graph(name, circuit_graph)] *)
Definition debug_assigned_graph (self : Options.t) (name : string)
    (circuit_graph : Graph) : M Console unit :=
  if show_assigned_graph self then
    with_ (debug_table ("Bit-Width Assigned Computation Graph for " ++ name) true)
          (print (format_assigned circuit_graph))
  else ret tt.

(** [debug_mlir(mlir_str)] *)
Definition debug_mlir (self : Options.t) (mlir_str : string) : M Console unit :=
  if show_mlir self then
    with_ (debug_table "MLIR" true) (print mlir_str)
  else ret tt.

(** The reports that [compile] asks for, and a run of them on one
    manager. *)
Inductive Report : Type :=
| ComputationGraph (name : string) (circuit_graph : Graph)
| BitWidthConstraints (name : string) (circuit_graph : Graph)
| BitWidthAssignments (name : string) (circuit_graph : Graph)
| AssignedGraph (name : string) (circuit_graph : Graph)
| Mlir (mlir_str : string).

Definition debug (self : Options.t) (report : Report) : M Console unit :=
  match report with
  | ComputationGraph name g => debug_computation_graph self name g
  | BitWidthConstraints name g => debug_bit_width_constaints self name g
  | BitWidthAssignments name g => debug_bit_width_assignments self name g
  | AssignedGraph name g => debug_assigned_graph self name g
  | Mlir mlir_str => debug_mlir self mlir_str
  end.

Fixpoint debug_all (self : Options.t) (reports : list Report) : M Console unit :=
  match reports with
  | [] => ret tt
  | report :: reports' => debug self report ;;; debug_all self reports'
  end.

(** The toggle that a report answers to, and the table it prints. *)
Definition shown (self : Options.t) (report : Report) : bool :=
  match report with
  | ComputationGraph _ _ => show_graph self
  | BitWidthConstraints _ _ => show_bit_width_constraints self
  | BitWidthAssignments _ _ => show_bit_width_assignments self
  | AssignedGraph _ _ => show_assigned_graph self
  | Mlir _ => show_mlir self
  end.

Definition table (title text : string) : string :=
  title ++ newline ++ rule columns ++ newline
  ++ text ++ newline
  ++ rule columns ++ newline ++ newline.

Definition table_of (report : Report) : string :=
  match report with
  | ComputationGraph name g => table ("Computation Graph for " ++ name) (format g)
  | BitWidthConstraints name g =>
      table ("Bit-Width Constraints for " ++ name) (format_bit_width_constraints g)
  | BitWidthAssignments name g =>
      table ("Bit-Width Assignments for " ++ name) (format_bit_width_assignments g)
  | AssignedGraph name g =>
      table ("Bit-Width Assigned Computation Graph for " ++ name) (format_assigned g)
  | Mlir mlir_str => table "MLIR" mlir_str
  end.

End WithGraph.

End DebugManager.

(** ** More inputs for the small instance *)

Module Samples.

Import Toy.

(** The circuit definition of [add_sub] with both parameters encrypted. *)
Definition add_sub_def : CircuitDef.t :=
  {| CircuitDef.name := "add_sub";
     CircuitDef.function := add_sub;
     CircuitDef.parameter_encryption_statuses := [("x", ENCRYPTED); ("y", ENCRYPTED)];
     CircuitDef.inputset := [];
     CircuitDef.graph := None;
     CircuitDef.artifacts := None;
     CircuitDef._is_direct := false;
     CircuitDef._parameter_values := [] |}.

(** [square] once evaluated on the sample [3]. *)
Definition square_measured : CircuitDef.t :=
  CircuitDef.with_graph (square_def [PyInt 3]) (Some ("square", 2%nat)).

Definition compiler : ProgramCompiler.t :=
  ProgramCompiler.__init__ [("square", square_def [])].

(** A program in execution mode. *)
Definition program : Program.t :=
  {| Program.configuration := execution_only;
     Program.graphs := [("square", ("square", 5%nat))];
     Program.mlir_module := ["square"];
     Program.compilation_context := tt;
     Program.rt := ExecutionRt tt false |}.

(** Execution with the insecure key cache asked for and the unsafe
    features left off. *)
Definition cache_without_gate : Configuration :=
  {| fhe_simulation := false;
     fhe_execution := true;
     composable := true;
     auto_adjust_rounders := false;
     auto_adjust_truncators := false;
     use_insecure_key_cache := true;
     enable_unsafe_features := false;
     insecure_key_cache_location := Some ".keys";
     dump_artifacts_on_unexpected_failures := false |}.

(** Only [show_mlir] is set; everything else follows [verbose], off. *)
Definition only_mlir : DebugManager.Options.t :=
  {| DebugManager.Options.verbose := false;
     DebugManager.Options.show_graph := None;
     DebugManager.Options.show_bit_width_constraints := None;
     DebugManager.Options.show_bit_width_assignments := None;
     DebugManager.Options.show_assigned_graph := None;
     DebugManager.Options.show_mlir := Some true;
     DebugManager.Options.show_optimizer := None;
     DebugManager.Options.show_statistics := None |}.

End Samples.

(** ** The analysis stages behind [_evaluate] *)

Module Analysis.
Section WithExternal.
Context `{External}.



(** What section 4.4 calls the structure of a graph: the part of it that
    tracing and fusing build and that assigning bit widths leaves alone. *)
Variable Structure : Type.
Variable structure : Graph -> Structure.



End WithExternal.
End Analysis.

(** ** A configuration that asks for the tuners *)

Module Tuners.

(** Both tuners asked for. *)
Definition tuned_configuration : Configuration :=
  {| fhe_simulation := false;
     fhe_execution := true;
     composable := false;
     auto_adjust_rounders := true;
     auto_adjust_truncators := true;
     use_insecure_key_cache := false;
     enable_unsafe_features := false;
     insecure_key_cache_location := None;
     dump_artifacts_on_unexpected_failures := false |}.

End Tuners.

(** * Properties *)

(** ** The reference rounding function *)

Module RoundGenFacts.
Import RoundGen.
Local Open Scope Z_scope.

Example round_6_3_2 : round 6 3 2 false = Ok 3.
Proof. reflexivity. Qed.

Example round_7_3_2 : round 7 3 2 false = Ok 4.
Proof. reflexivity. Qed.

Example round_signed_6_3_2 : round 6 3 2 true = Ok (-3).
Proof. reflexivity. Qed.

Example round_signed_negative : round (-3) 3 2 true = Ok (-1).
Proof. reflexivity. Qed.

Example round_signed_to_zero_bits :
  round 1 3 0 true = Raise (ValueError "negative shift count").
Proof. reflexivity. Qed.

Lemma land_pow2 (a k : Z) :
  0 <= k -> Z.land a (2 ^ k) = if Z.testbit a k then 2 ^ k else 0.
Proof.
  intros Hk. apply Z.bits_inj'. intros n Hn.
  rewrite Z.land_spec, Z.pow2_bits_eqb by assumption.
  destruct (Z.eqb_spec k n) as [->|Hne].
  - destruct (Z.testbit a n) eqn:E.
    + now rewrite Z.pow2_bits_true.
    + now rewrite Z.bits_0.
  - rewrite andb_false_r. destruct (Z.testbit a k).
    + rewrite Z.pow2_bits_false; auto.
    + now rewrite Z.bits_0.
Qed.

Lemma half_up_div (val d : Z) :
  1 <= d ->
  (val + 2 ^ (d - 1)) / 2 ^ d =
  val / 2 ^ d + (if Z.testbit val (d - 1) then 1 else 0).
Proof.
  intros Hd.
  assert (Hh : 0 < 2 ^ (d - 1)) by (apply Z.pow_pos_nonneg; lia).
  replace (2 ^ d) with (2 ^ (d - 1) * 2)
    by (rewrite Z.mul_comm, <- Z.pow_succ_r by lia; f_equal; lia).
  rewrite <- !Z.div_div by lia.
  replace (val + 2 ^ (d - 1)) with (val + 1 * 2 ^ (d - 1)) by lia.
  rewrite Z.div_add by lia.
  rewrite Z.testbit_odd, Z.shiftr_div_pow2 by lia.
  generalize (val / 2 ^ (d - 1)). intros q.
  pose proof (Zmod_odd q) as Hodd.
  destruct (Z.odd q); Z.div_mod_to_equations; lia.
Qed.

(** The unsigned path on any integer: the shifted value plus the bit just
    below the kept ones. *)
Lemma round_unsigned (val p_start p_end : Z) :
  p_end < p_start ->
  round val p_start p_end false =
  Ok (Z.shiftr val (p_start - p_end)
      + (if Z.testbit val (p_start - p_end - 1) then 1 else 0)).
Proof.
  intros Hp. unfold round, lshift, rshift.
  destruct (Z.ltb_spec (p_start - p_end - 1) 0) as [|H1]; [lia|]. cbn [rbind].
  rewrite Z.shiftl_1_l, land_pow2 by lia.
  destruct (Z.testbit val (p_start - p_end - 1)) eqn:Hbit.
  - assert (Hpos : 0 < 2 ^ (p_start - p_end - 1)) by (apply Z.pow_pos_nonneg; lia).
    destruct (Z.eqb_spec (2 ^ (p_start - p_end - 1)) 0) as [|_]; [lia|].
    cbn [negb rbind].
    destruct (Z.ltb_spec 1 0) as [|_]; [lia|]. cbn [rbind].
    destruct (Z.ltb_spec (p_start - p_end) 0) as [|_]; [lia|]. cbn [rbind].
    f_equal. rewrite !Z.shiftr_div_pow2, Z.shiftl_mul_pow2 by lia.
    assert (Hpow : 2 ^ (p_start - p_end - 1) * 2 ^ 1 = 1 * 2 ^ (p_start - p_end)).
    { rewrite <- Z.pow_add_r, Z.mul_1_l by lia. f_equal. lia. }
    rewrite Hpow.
    rewrite Z.div_add by (apply Z.pow_nonzero; lia). reflexivity.
  - cbn [Z.eqb negb rbind].
    destruct (Z.ltb_spec (p_start - p_end) 0) as [|_]; [lia|]. cbn [rbind].
    f_equal. lia.
Qed.

(** The signed path negates the output of the unsigned path from
    [2 ^ (p_end - 1)] on. *)
Lemma round_signed (val p_start p_end output : Z) :
  p_end < p_start -> 0 < p_end ->
  round val p_start p_end false = Ok output ->
  round val p_start p_end true =
  Ok (if output >=? 2 ^ (p_end - 1) then - output else output).
Proof.
  intros Hp He. unfold round, lshift, rshift.
  destruct (Z.ltb_spec (p_start - p_end - 1) 0) as [|_]; [lia|]. cbn [rbind].
  destruct (if negb (Z.land val (Z.shiftl 1 (p_start - p_end - 1)) =? 0)
            then _ else _) as [val'|e]; cbn [rbind]; [|discriminate].
  destruct (Z.ltb_spec (p_start - p_end) 0) as [|_]; [lia|]. cbn [rbind].
  intros [= <-].
  destruct (Z.ltb_spec (p_end - 1) 0) as [|_]; [lia|]. cbn [rbind].
  now rewrite Z.shiftl_1_l.
Qed.

(** C6: for bit widths [p_start > p_end] and [val] representable in
    [p_start] bits, the unsigned reference rounding is
    [floor((val + 2^(p_delta-1)) / 2^p_delta)], that is the right-shifted
    value plus one exactly when bit [p_delta-1] of [val] is set; in the
    signed path an output of at least [2^(p_end-1)] is negated. *)
Theorem round_half_up_carry (val p_start p_end : Z) :
  p_end < p_start ->
  let p_delta := p_start - p_end in
  (0 <= val < 2 ^ p_start ->
   round val p_start p_end false = Ok ((val + 2 ^ (p_delta - 1)) / 2 ^ p_delta)
   /\ round val p_start p_end false =
      Ok (Z.shiftr val p_delta + (if Z.testbit val (p_delta - 1) then 1 else 0)))
  /\ (0 < p_end ->
      forall output, round val p_start p_end false = Ok output ->
        (2 ^ (p_end - 1) <= output -> round val p_start p_end true = Ok (- output))
        /\ (output < 2 ^ (p_end - 1) -> round val p_start p_end true = Ok output)).
Proof.
  intros Hp p_delta. subst p_delta. split.
  - intros _. rewrite round_unsigned by assumption. split; [|reflexivity].
    f_equal. rewrite half_up_div, Z.shiftr_div_pow2 by lia. reflexivity.
  - intros He output Hout.
    rewrite (round_signed val p_start p_end output Hp He Hout).
    split; intros Hcmp.
    + destruct (Z.geb_spec output (2 ^ (p_end - 1))); [reflexivity|lia].
    + destruct (Z.geb_spec output (2 ^ (p_end - 1))); [lia|reflexivity].
Qed.

Lemma round_half_up_carry_witness :
  round 6 3 2 false = Ok ((6 + 2 ^ (3 - 2 - 1)) / 2 ^ (3 - 2))
  /\ round 6 3 2 true = Ok (- 3).
Proof.
  assert (Hp : 2 < 3) by lia.
  destruct (round_half_up_carry 6 3 2 Hp) as [Hu Hs].
  split.
  - apply Hu. cbn. lia.
  - assert (He : 0 < 2) by lia.
    apply (Hs He 3); [reflexivity | cbn; lia].
Defined.

End RoundGenFacts.

(** ** Circuit definitions *)

Module CircuitDefFacts.
Import CircuitDef.

Lemma mem_In (x : string) (l : list string) : mem x l = true <-> In x l.
Proof.
  unfold mem. rewrite existsb_exists. split.
  - intros (y & Hy & Heq). apply String.eqb_eq in Heq. now subst.
  - intros Hin. exists x. split; [assumption | apply String.eqb_refl].
Qed.

Lemma mem_not_In (x : string) (l : list string) : mem x l = false <-> ~ In x l.
Proof.
  rewrite <- mem_In. destruct (mem x l); split; congruence.
Qed.

Lemma filter_all {A} (f : A -> bool) (l : list A) :
  (forall x, In x l -> f x = true) -> filter f l = l.
Proof.
  induction l as [|a l IH]; cbn; intros Hall; [reflexivity|].
  rewrite Hall by now left. f_equal. apply IH. intros x Hx. apply Hall. now right.
Qed.

Lemma filter_twice {A} (f g : A -> bool) (l : list A) :
  filter f (filter g l) = filter (fun x => g x && f x) l.
Proof.
  induction l as [|a l IH]; cbn; [reflexivity|].
  destruct (g a); cbn; [destruct (f a)|]; now rewrite IH.
Qed.

(** [list.remove] of a name present in a list without duplicates keeps
    the other names. *)
Lemma list_remove_filter (x : string) (l : list string) :
  NoDup l -> In x l ->
  list_remove x l = Ok (filter (fun y => negb (String.eqb x y)) l).
Proof.
  induction l as [|y l IH]; intros Hnd Hin; [contradiction|].
  inversion Hnd as [|? ? Hy Hl]; subst. cbn.
  destruct (String.eqb_spec x y) as [->|Hne]; cbn.
  - f_equal. symmetry. apply filter_all. intros z Hz.
    destruct (String.eqb_spec y z) as [->|]; [contradiction | reflexivity].
  - destruct Hin as [->|Hin]; [congruence|].
    now rewrite IH.
Qed.

(** The removal loop of [__init__] computes a difference of name lists. *)
Lemma remove_known_filter (known keys remaining : list string) :
  NoDup keys -> NoDup remaining ->
  (forall k, In k keys -> In k known -> In k remaining) ->
  remove_known keys known remaining =
  Ok (filter (fun y => negb (mem y keys && mem y known)) remaining).
Proof.
  revert remaining. induction keys as [|arg keys IH]; intros remaining Hk Hr Hsub.
  - cbn. f_equal. symmetry. now apply filter_all.
  - inversion Hk as [|? ? Harg Hkeys]; subst. cbn [remove_known].
    destruct (mem arg known) eqn:Hmem.
    + rewrite list_remove_filter; auto.
      2:{ apply Hsub; [now left | now apply mem_In]. }
      rewrite IH; auto.
      * f_equal. rewrite filter_twice. apply filter_ext. intros y. cbn [mem existsb].
        destruct (String.eqb_spec arg y) as [->|Hne].
        -- rewrite String.eqb_refl, Hmem. reflexivity.
        -- destruct (String.eqb_spec y arg) as [->|_]; [congruence | reflexivity].
      * now apply NoDup_filter.
      * intros k Hin Hkn. apply filter_In. split.
        -- apply Hsub; [now right | assumption].
        -- destruct (String.eqb_spec arg k) as [->|]; [contradiction | reflexivity].
    + rewrite IH; auto.
      * f_equal. apply filter_ext. intros y. cbn [mem existsb].
        destruct (String.eqb_spec y arg) as [->|_]; [|reflexivity].
        fold (mem arg keys). fold (mem arg known). rewrite Hmem.
        now rewrite !andb_false_r.
      * intros k Hin Hkn. apply Hsub; [now right | assumption].
Qed.

Lemma remove_known_difference (keys known : list string) :
  NoDup keys -> NoDup known ->
  remove_known keys known known = Ok (filter (fun y => negb (mem y keys)) known).
Proof.
  intros Hk Hn. rewrite remove_known_filter; auto.
  f_equal. apply filter_ext_in. intros y Hy.
  apply mem_In in Hy. now rewrite Hy, andb_true_r.
Qed.

Lemma filter_nil_iff {A} (f : A -> bool) (l : list A) :
  filter f l = [] <-> forall x, In x l -> f x = false.
Proof.
  induction l as [|a l IH]; cbn.
  - split; [intros _ x [] | reflexivity].
  - destruct (f a) eqn:Hfa; split.
    + discriminate.
    + intros Hall. specialize (Hall a (or_introl eq_refl)). congruence.
    + intros Hnil x [<-|Hx]; [assumption | now apply IH].
    + intros Hall. apply IH. intros x Hx. apply Hall. now right.
Qed.

Lemma length_zero_nil {A} (l : list A) : Nat.eqb (List.length l) 0 = true <-> l = [].
Proof.
  destruct l; cbn; split; congruence.
Qed.


Section Construction.
Context `{External}.

Lemma init_unfold (function : Callable Body) (statuses : list (string * string)) :
  NoDup (parameters function) -> NoDup (map fst statuses) ->
  __init__ function statuses =
  let declared := map fst statuses in
  let missing := filter (fun p => negb (mem p declared)) (parameters function) in
  let additional := filter (fun k => negb (mem k (parameters function))) declared in
  match missing with
  | _ :: _ => Raise (ValueError (missing_message (__name__ function) missing))
  | [] =>
      match additional with
      | _ :: _ => Raise (ValueError (additional_message (__name__ function) additional))
      | [] =>
          rbind
            (mapM (fun item : string * string =>
                     rbind (EncryptionStatus_of (lower (snd item)))
                           (fun status => Ok (fst item, status)))
                  statuses)
            (fun statuses' =>
               Ok {| name := __name__ function;
                     function := function;
                     parameter_encryption_statuses := statuses';
                     inputset := [];
                     graph := None;
                     artifacts := None;
                     _is_direct := false;
                     _parameter_values := [] |})
      end
  end.
Proof.
  intros Hp Hd. unfold __init__.
  rewrite (remove_known_difference (map fst statuses) (parameters function)) by assumption.
  cbn [rbind].
  destruct (filter _ (parameters function)) as [|m missing]; cbn; [|reflexivity].
  rewrite (remove_known_difference (parameters function) (map fst statuses)) by assumption.
  cbn [rbind].
  destruct (filter _ (map fst statuses)) as [|a additional]; reflexivity.
Qed.

Lemma statuses_converted (statuses : list (string * string)) :
  (forall item, In item statuses -> valid_status (snd item) = true) ->
  exists l,
    mapM (fun item : string * string =>
            rbind (EncryptionStatus_of (lower (snd item)))
                  (fun status => Ok (fst item, status)))
         statuses = Ok l.
Proof.
  induction statuses as [|item statuses IH]; intros Hall.
  - now exists [].
  - destruct IH as [l Hl]; [intros i Hi; apply Hall; now right|].
    specialize (Hall item (or_introl eq_refl)). unfold valid_status in Hall.
    cbn. destruct (EncryptionStatus_of (lower (snd item))) as [status|]; [|discriminate].
    cbn. rewrite Hl. now eexists.
Qed.

(** C7: constructing a [CircuitDef] whose encryption statuses do not match
    the signature fails at construction with a [ValueError] whose message
    enumerates the offending names: the parameters without a status, in
    signature order, or else the statuses that name no parameter, in
    declaration order; construction returns only when the declared names
    and the parameter names coincide, and then it does return when every
    status is a valid one. *)
Theorem init_checks_signature (function : Callable Body)
    (statuses : list (string * string)) :
  NoDup (parameters function) -> NoDup (map fst statuses) ->
  let declared := map fst statuses in
  let missing := filter (fun p => negb (mem p declared)) (parameters function) in
  let additional := filter (fun k => negb (mem k (parameters function))) declared in
  ((exists p, In p (parameters function) /\ ~ In p declared) ->
   missing <> []
   /\ __init__ function statuses =
      Raise (ValueError (missing_message (__name__ function) missing)))
  /\ ((forall p, In p (parameters function) -> In p declared) ->
      (exists k, In k declared /\ ~ In k (parameters function)) ->
      additional <> []
      /\ __init__ function statuses =
         Raise (ValueError (additional_message (__name__ function) additional)))
  /\ (forall c, __init__ function statuses = Ok c ->
      forall x, In x (parameters function) <-> In x declared)
  /\ ((forall x, In x (parameters function) <-> In x declared) ->
      (forall item, In item statuses -> valid_status (snd item) = true) ->
      exists c, __init__ function statuses = Ok c).
Proof.
  intros Hp Hd declared missing additional.
  rewrite (init_unfold function statuses Hp Hd). cbv zeta.
  fold declared. fold missing. fold additional.
  assert (Hmissing : missing = [] <-> forall p, In p (parameters function) -> In p declared).
  { unfold missing. rewrite filter_nil_iff. split; intros Hall p Hin.
    - specialize (Hall p Hin). apply negb_false_iff in Hall. now apply mem_In.
    - apply negb_false_iff. apply mem_In. auto. }
  assert (Hadditional : additional = [] <-> forall k, In k declared -> In k (parameters function)).
  { unfold additional. rewrite filter_nil_iff. split; intros Hall p Hin.
    - specialize (Hall p Hin). apply negb_false_iff in Hall. now apply mem_In.
    - apply negb_false_iff. apply mem_In. auto. }
  split; [|split; [|split]].
  - intros (p & Hin & Hnot).
    assert (Hsome : missing <> []).
    { intros Hnil. apply Hnot. now apply Hmissing. }
    split; [assumption|]. now destruct missing.
  - intros Hall (k & Hin & Hnot).
    assert (Hsome : additional <> []).
    { intros Hnil. apply Hnot. now apply Hadditional. }
    split; [assumption|].
    apply Hmissing in Hall. rewrite Hall. now destruct additional.
  - intros c Hok x.
    destruct missing; [|discriminate]. destruct additional; [|discriminate].
    split; [now apply (proj1 Hmissing) | now apply (proj1 Hadditional)].
  - intros Hsame Hvalid.
    replace missing with (@nil string) by (symmetry; apply Hmissing; intros p; apply Hsame).
    replace additional with (@nil string)
      by (symmetry; apply Hadditional; intros p; apply Hsame).
    destruct (statuses_converted statuses Hvalid) as [l Hl].
    rewrite Hl. cbn. now eexists.
Qed.

End Construction.

Section Evaluate.
Context `{External}.

Lemma with_inputset_same (self : t) : with_inputset self (inputset self) = self.
Proof. now destruct self. Qed.

Lemma with_inputset_twice (self : t) (a b : list PyAny) :
  with_inputset (with_inputset self a) b = with_inputset self b.
Proof. reflexivity. Qed.

(** The loop over well-formed samples appends them all. *)
Lemma extend_inputset_well_formed (samples : list PyAny) :
  forall (previous index : nat) (self : t),
    (forall sample, In sample samples ->
       List.length (as_tuple sample)
       = List.length (parameter_encryption_statuses self)) ->
    extend_inputset previous index samples self
    = (Ok tt, with_inputset self (inputset self ++ samples)).
Proof.
  induction samples as [|sample samples IH]; intros previous index self Hall.
  - cbn. unfold ret. now rewrite app_nil_r, with_inputset_same.
  - cbn [extend_inputset]. unfold bind, modify, get. cbn [parameter_encryption_statuses with_inputset].
    rewrite (Hall sample (or_introl eq_refl)), Nat.eqb_refl. cbn [negb].
    rewrite IH.
    + cbn [inputset with_inputset]. now rewrite <- app_assoc.
    + intros s Hs. cbn. apply Hall. now right.
Qed.

(** The loop stops at the first sample of the wrong arity, names its
    index, and slices the inputset back to its previous length. *)
Lemma extend_inputset_malformed (samples : list PyAny) :
  forall (previous index : nat) (self : t),
    (exists sample, In sample samples
       /\ List.length (as_tuple sample)
          <> List.length (parameter_encryption_statuses self)) ->
    exists offset sample,
      nth_error samples offset = Some sample
      /\ List.length (as_tuple sample)
         <> List.length (parameter_encryption_statuses self)
      /\ (forall j earlier, j < offset -> nth_error samples j = Some earlier ->
            List.length (as_tuple earlier)
            = List.length (parameter_encryption_statuses self))
      /\ extend_inputset previous index samples self
         = (Raise (ValueError
                     (malformed_message (index + offset)
                        (List.length (parameter_encryption_statuses self))
                        (List.length (as_tuple sample)))),
            with_inputset self
              (firstn previous (inputset self ++ firstn (S offset) samples))).
Proof.
  induction samples as [|sample samples IH]; intros previous index self Hbad.
  - destruct Hbad as (s & [] & _).
  - destruct (Nat.eq_dec (List.length (as_tuple sample))
                         (List.length (parameter_encryption_statuses self)))
      as [Heq|Hne].
    + destruct (IH previous (S index)
                   (with_inputset self (inputset self ++ [sample])))
        as (offset & bad & Hnth & Hlen & Hearlier & Hrun).
      { destruct Hbad as (s & [->|Hin] & Hs); [contradiction|]. now exists s. }
      exists (S offset), bad. repeat split; try assumption.
      * intros [|j] earlier Hj Hn; cbn in Hn.
        -- now injection Hn as <-.
        -- apply (Hearlier j); [lia | assumption].
      * cbn [extend_inputset]. unfold bind, modify, get.
        cbn [parameter_encryption_statuses with_inputset].
        rewrite Heq, Nat.eqb_refl. cbn [negb].
        rewrite Hrun. cbn [parameter_encryption_statuses inputset with_inputset].
        rewrite <- app_assoc, Nat.add_succ_r. reflexivity.
    + exists 0, sample. repeat split; try assumption.
      * intros j earlier Hj. lia.
      * cbn [extend_inputset]. unfold bind, modify, get, put, raise.
        cbn [parameter_encryption_statuses inputset with_inputset].
        apply Nat.eqb_neq in Hne. rewrite Hne. cbn [negb].
        now rewrite Nat.add_0_r.
Qed.

(** C2: when a sample passed to [_evaluate] has an arity other than the
    number of declared parameters, the call raises the malformed-inputset
    [ValueError] with the index of the first such sample, and the circuit
    definition, its accumulated inputset included, is what it was before
    the call. *)
Theorem evaluate_malformed_inputset_rolls_back (self : t) (action : string)
    (samples : list PyAny) (configuration : Configuration)
    (artifacts : CircuitDebugArtifacts Graph) :
  _is_direct self = false ->
  (exists sample, In sample samples
     /\ List.length (as_tuple sample)
        <> List.length (parameter_encryption_statuses self)) ->
  exists index sample,
    nth_error samples index = Some sample
    /\ List.length (as_tuple sample)
       <> List.length (parameter_encryption_statuses self)
    /\ (forall j earlier, j < index -> nth_error samples j = Some earlier ->
          List.length (as_tuple earlier)
          = List.length (parameter_encryption_statuses self))
    /\ _evaluate action (Some samples) configuration (self, artifacts)
       = (Raise (ValueError
                   (malformed_message index
                      (List.length (parameter_encryption_statuses self))
                      (List.length (as_tuple sample)))),
          (self, artifacts)).
Proof.
  intros Hdirect Hbad.
  destruct (extend_inputset_malformed samples (List.length (inputset self)) 0 self Hbad)
    as (index & sample & Hnth & Hlen & Hearlier & Hrun).
  exists index, sample. repeat split; try assumption.
  unfold _evaluate, bind, get. cbn [fst]. rewrite Hdirect.
  unfold on_self, zoom. cbn [fst snd]. rewrite Hrun.
  rewrite firstn_app, Nat.sub_diag, firstn_all. cbn [firstn].
  now rewrite app_nil_r, with_inputset_same.
Qed.


Lemma extend_inputset_cases (samples : list PyAny) :
  forall (previous index : nat) (self : t),
    extend_inputset previous index samples self
    = (Ok tt, with_inputset self (inputset self ++ samples))
    \/ exists e self', extend_inputset previous index samples self = (Raise e, self').
Proof.
  induction samples as [|sample samples IH]; intros previous index self.
  - left. cbn. unfold ret. now rewrite app_nil_r, with_inputset_same.
  - cbn [extend_inputset]. unfold bind, modify, get, put, raise.
    cbn [parameter_encryption_statuses inputset with_inputset].
    destruct (Nat.eqb _ _); cbn [negb].
    + destruct (IH previous (S index) (with_inputset self (inputset self ++ [sample])))
        as [Hok|(e & self' & Hraise)].
      * left. rewrite Hok. cbn [inputset with_inputset]. now rewrite <- app_assoc.
      * right. rewrite Hraise. now eexists _, _.
    + right. now eexists _, _.
Qed.

(** [_evaluate] on a circuit that is not direct: the extension of the
    inputset, then the measure. *)
Lemma evaluate_not_direct (self : t) (action : string)
    (new_inputset : option (list PyAny)) (configuration : Configuration)
    (artifacts : CircuitDebugArtifacts Graph) :
  _is_direct self = false ->
  _evaluate action new_inputset configuration (self, artifacts)
  = match extend_inputset (List.length (inputset self)) 0 (passed new_inputset) self with
    | (Ok _, extended) => measure_and_update action configuration (extended, artifacts)
    | (Raise e, self') => (Raise e, (self', artifacts))
    end.
Proof.
  intros Hdirect. unfold _evaluate, bind, get. cbn [fst]. rewrite Hdirect.
  destruct new_inputset as [samples|]; cbn [passed].
  - unfold on_self, zoom. cbn [fst snd].
    now destruct (extend_inputset _ 0 samples self) as [[[]|e] self'].
  - reflexivity.
Qed.

Lemma adjust_keeps (tuner : Body -> list PyAny -> Result unit * Body) (self : t) :
  graph (snd (adjust tuner self)) = graph self
  /\ inputset (snd (adjust tuner self)) = inputset self
  /\ __name__ (function (snd (adjust tuner self))) = __name__ (function self).
Proof.
  unfold adjust, bind, get, put, lift. cbn.
  now destruct (tuner _ _) as [[[]|e] body'].
Qed.

Lemma auto_adjust_keeps (configuration : Configuration) (self : t) :
  graph (snd (auto_adjust configuration self)) = graph self
  /\ inputset (snd (auto_adjust configuration self)) = inputset self
  /\ __name__ (function (snd (auto_adjust configuration self)))
     = __name__ (function self).
Proof.
  unfold auto_adjust, bind.
  destruct (auto_adjust_rounders configuration).
  - pose proof (adjust_keeps AutoRounder_adjust self) as (Hg & Hi & Hn).
    destruct (adjust AutoRounder_adjust self) as [[[]|e] self1]; cbn [fst snd] in *.
    + destruct (auto_adjust_truncators configuration).
      * pose proof (adjust_keeps AutoTruncator_adjust self1) as (Hg' & Hi' & Hn').
        repeat split; congruence.
      * now repeat split.
    + now repeat split.
  - cbn. destruct (auto_adjust_truncators configuration).
    + apply adjust_keeps.
    + now repeat split.
Qed.




End Evaluate.

Section Combinators.
Context {S : Type} (R : S -> S -> Prop).

Lemma sim_ret {A} (Q : A -> A -> Prop) (a1 a2 : A) :
  Q a1 a2 -> sim R Q (ret a1) (ret a2).
Proof. intros HQ s1 s2 HR. now split. Qed.

Lemma sim_raise {A} (Q : A -> A -> Prop) (e1 e2 : Exception) :
  sim R Q (raise e1) (raise e2).
Proof. intros s1 s2 HR. now split. Qed.

Lemma sim_lift {A} (Q : A -> A -> Prop) (r1 r2 : Result A) :
  same_result Q r1 r2 -> sim R Q (lift r1) (lift r2).
Proof. intros HQ s1 s2 HR. now split. Qed.

Lemma sim_get : sim R R get get.
Proof. intros s1 s2 HR. now split. Qed.

Lemma sim_modify (f1 f2 : S -> S) :
  (forall s1 s2, R s1 s2 -> R (f1 s1) (f2 s2)) ->
  sim R any (modify f1) (modify f2).
Proof. intros Hf s1 s2 HR. split; [exact I | now apply Hf]. Qed.

Lemma sim_bind {A B} (Q : A -> A -> Prop) (Q' : B -> B -> Prop)
    (m1 m2 : M S A) (k1 k2 : A -> M S B) :
  sim R Q m1 m2 ->
  (forall a1 a2, Q a1 a2 -> sim R Q' (k1 a1) (k2 a2)) ->
  sim R Q' (bind m1 k1) (bind m2 k2).
Proof.
  intros Hm Hk s1 s2 HR. unfold bind.
  destruct (Hm s1 s2 HR) as [Hres Hst].
  destruct (m1 s1) as [[a1|e1] s1'], (m2 s2) as [[a2|e2] s2']; cbn in *;
    try contradiction.
  - now apply Hk.
  - now split.
Qed.

Lemma same_result_refl {A} (r : Result A) : same_result eq r r.
Proof. now destruct r. Qed.

End Combinators.

Section TwoRuns.
Context `{External}.

Lemma sim_on_self {A} (Q : A -> A -> Prop) (m1 m2 : M t A) :
  sim agree Q m1 m2 -> sim agree_frames Q (on_self m1) (on_self m2).
Proof.
  intros Hm [a1 x1] [a2 x2] HR. unfold on_self, zoom. cbn [fst snd].
  destruct (Hm a1 a2 HR) as [Hres Hst].
  destruct (m1 a1) as [r1 b1], (m2 a2) as [r2 b2]. now split.
Qed.

Lemma agree_record_entries (e1 e2 : list (ArtifactEntry Graph)) (a b : t) :
  agree a b -> agree (record_entries e1 a) (record_entries e2 b).
Proof.
  intros (Hf & Hs & Hi & Hg). unfold record_entries.
  destruct (artifacts a), (artifacts b); repeat split; assumption.
Qed.

Lemma agree_with_graph (g : option Graph) (a b : t) :
  agree a b -> agree (with_graph a g) (with_graph b g).
Proof. intros (Hf & Hs & Hi & Hg). repeat split; assumption. Qed.

Lemma adjust_sim (tuner : Body -> list PyAny -> Result unit * Body) :
  sim agree any (adjust tuner) (adjust tuner).
Proof.
  intros a b (Hf & Hs & Hi & Hg). unfold adjust, bind, get, put, lift. cbn.
  rewrite Hf, Hi. destruct (tuner _ _) as [[[]|e] body']; cbn.
  - split; [exact I|]. repeat split; cbn; congruence.
  - split; [exact I|]. repeat split; cbn; congruence.
Qed.

Lemma auto_adjust_sim (configuration : Configuration) :
  sim agree any (auto_adjust configuration) (auto_adjust configuration).
Proof.
  unfold auto_adjust. apply sim_bind with (Q := any).
  - destruct (auto_adjust_rounders configuration);
      [apply adjust_sim | now apply sim_ret].
  - intros _ _ _. destruct (auto_adjust_truncators configuration);
      [apply adjust_sim | now apply sim_ret].
Qed.

Lemma trace_sim (sample : PyAny) : sim agree any (_trace sample) (_trace sample).
Proof.
  unfold _trace. eapply sim_bind; [apply sim_get|].
  intros a b Hab. pose proof Hab as (Hf & Hs & Hi & Hg).
  eapply sim_bind.
  { apply sim_modify. intros. now apply agree_record_entries. }
  intros _ _ _. eapply sim_bind with (Q := eq).
  { apply sim_lift. unfold trace_parameters, sample_arguments. rewrite Hs.
    apply same_result_refl. }
  intros parameters ? <-. eapply sim_bind with (Q := eq).
  { apply sim_lift. rewrite Hf. apply same_result_refl. }
  intros g ? <-. eapply sim_bind.
  { apply sim_modify. intros. now apply agree_with_graph. }
  intros _ _ _. eapply sim_bind.
  { apply sim_modify. intros. now apply agree_record_entries. }
  intros _ _ _. destruct (fuse g) as [[outcome fused] entries].
  eapply sim_bind.
  { apply sim_modify. intros.
    now apply agree_record_entries, agree_with_graph. }
  intros _ _ _. apply sim_lift. destruct outcome; exact I.
Qed.

Lemma ensure_graph_sim (action1 action2 : string) :
  sim agree eq (ensure_graph action1) (ensure_graph action2).
Proof.
  unfold ensure_graph. eapply sim_bind; [apply sim_get|].
  intros a b Hab. pose proof Hab as (Hf & Hs & Hi & Hg).
  rewrite Hg, Hi. destruct (graph b) as [g|].
  - now apply sim_ret.
  - destruct (inputset b) as [|first_sample others].
    + apply sim_raise.
    + eapply sim_bind; [apply trace_sim|].
      intros _ _ _. eapply sim_bind; [apply sim_get|].
      intros a' b' (_ & _ & _ & Hg').
      rewrite Hg'. destruct (graph b'); [now apply sim_ret | apply sim_raise].
Qed.

Lemma measure_and_update_sim (action1 action2 : string)
    (configuration : Configuration) :
  sim agree_frames any
      (measure_and_update action1 configuration)
      (measure_and_update action2 configuration).
Proof.
  unfold measure_and_update. eapply sim_bind.
  { apply sim_on_self, auto_adjust_sim. }
  intros _ _ _. eapply sim_bind.
  { apply sim_on_self, ensure_graph_sim. }
  intros g ? <-. eapply sim_bind; [apply sim_get|].
  intros f1 f2 Hframes. pose proof Hframes as (Hf & Hs & Hi & Hg).
  rewrite Hi. eapply sim_bind with (Q := eq).
  { apply sim_lift, same_result_refl. }
  intros bounds ? <-. destruct (update_with_bounds g bounds) as [outcome updated].
  eapply sim_bind.
  { apply sim_on_self, sim_modify. intros. now apply agree_with_graph. }
  intros _ _ _. eapply sim_bind with (Q := any).
  { apply sim_lift. destruct outcome; exact I. }
  intros _ _ _. unfold add_graph. apply sim_modify.
  intros [a x] [b y] Hab. exact Hab.
Qed.


Lemma measure_and_update_graph (action : string) (configuration : Configuration)
    (frame frame' : Frame) :
  measure_and_update action configuration frame = (Ok tt, frame') ->
  exists g, graph (fst frame') = Some g.
Proof.
  unfold measure_and_update, bind.
  destruct (on_self (auto_adjust configuration) frame) as [[[]|e] f1]; [|discriminate].
  destruct (on_self (ensure_graph action) f1) as [[g|e] f2]; [|discriminate].
  unfold get, lift.
  destruct (measure_bounds g (inputset (fst f2))) as [bounds|e]; [|discriminate].
  destruct (update_with_bounds g bounds) as [outcome updated].
  unfold on_self, zoom, modify, add_graph. cbn [fst snd].
  destruct outcome as [[]|e]; [|discriminate].
  intros [= <-]. now exists updated.
Qed.

(** The graph left by [_evaluate] is a function of the function, the
    encryption statuses, the graph and the accumulated inputset: two runs
    that agree on them, under the same configuration, and that both
    return, leave the same graph, whatever the action, the artifacts and
    the share of the inputset that was accumulated before the call. *)
Theorem evaluate_deterministic (self1 self2 self1' self2' : t)
    (action1 action2 : string) (new1 new2 : option (list PyAny))
    (configuration : Configuration)
    (artifacts1 artifacts2 artifacts1' artifacts2' : CircuitDebugArtifacts Graph) :
  _is_direct self1 = false ->
  _is_direct self2 = false ->
  function self1 = function self2 ->
  parameter_encryption_statuses self1 = parameter_encryption_statuses self2 ->
  graph self1 = graph self2 ->
  (inputset self1 ++ passed new1)%list = (inputset self2 ++ passed new2)%list ->
  _evaluate action1 new1 configuration (self1, artifacts1)
  = (Ok tt, (self1', artifacts1')) ->
  _evaluate action2 new2 configuration (self2, artifacts2)
  = (Ok tt, (self2', artifacts2')) ->
  graph self1' = graph self2'
  /\ (exists g, graph self1' = Some g)
  /\ inputset self1' = inputset self2'.
Proof.
  intros Hd1 Hd2 Hfun Hstatuses Hgraph Hacc Hrun1 Hrun2.
  rewrite evaluate_not_direct in Hrun1, Hrun2 by assumption.
  destruct (extend_inputset_cases (passed new1) (List.length (inputset self1)) 0 self1)
    as [Hext1|(e & s & Hext1)]; rewrite Hext1 in Hrun1; [|discriminate].
  destruct (extend_inputset_cases (passed new2) (List.length (inputset self2)) 0 self2)
    as [Hext2|(e & s & Hext2)]; rewrite Hext2 in Hrun2; [|discriminate].
  assert (Hagree : agree_frames
                     (with_inputset self1 (inputset self1 ++ passed new1), artifacts1)
                     (with_inputset self2 (inputset self2 ++ passed new2), artifacts2)).
  { repeat split; assumption. }
  destruct (measure_and_update_sim action1 action2 configuration _ _ Hagree)
    as [_ Hfinal].
  rewrite Hrun1, Hrun2 in Hfinal. destruct Hfinal as (_ & _ & Hinputset & Hg).
  cbn [fst snd] in *.
  destruct (measure_and_update_graph _ _ _ _ Hrun1) as [g Hsome].
  repeat split; [assumption | now exists g | assumption].
Qed.

End TwoRuns.

Section Preservation.
Context {S : Type} (P : S -> Prop).

Lemma preserves_ret {A} (a : A) : preserves P (ret a).
Proof. now intros s. Qed.

Lemma preserves_raise {A} (e : Exception) : preserves P (@raise S A e).
Proof. now intros s. Qed.

Lemma preserves_lift {A} (r : Result A) : preserves P (lift r).
Proof. now intros s. Qed.

Lemma preserves_get : preserves P get.
Proof. now intros s. Qed.

Lemma preserves_modify (f : S -> S) :
  (forall s, P s -> P (f s)) -> preserves P (modify f).
Proof. intros Hf s. apply Hf. Qed.

Lemma preserves_bind {A B} (m : M S A) (k : A -> M S B) :
  preserves P m -> (forall a, preserves P (k a)) -> preserves P (bind m k).
Proof.
  intros Hm Hk s Hs. unfold bind. specialize (Hm s Hs).
  destruct (m s) as [[a|e] s']; cbn in *; [now apply Hk | assumption].
Qed.

Lemma preserves_put (s' : S) : P s' -> preserves P (put s').
Proof. now intros Hs' s. Qed.

Lemma preserves_bind_get {B} (k : S -> M S B) :
  (forall a, P a -> preserves P (k a)) -> preserves P (bind get k).
Proof. intros Hk s Hs. unfold bind, get. now apply Hk. Qed.

End Preservation.

Section NotDirect.
Context `{External}.

Lemma not_direct_record_entries (entries : list (ArtifactEntry Graph)) (self : t) :
  not_direct self -> not_direct (record_entries entries self).
Proof. unfold record_entries, not_direct. now destruct (artifacts self). Qed.

Lemma trace_not_direct (sample : PyAny) : preserves not_direct (_trace sample).
Proof.
  unfold _trace. apply preserves_bind; [apply preserves_get|]. intros self.
  apply preserves_bind.
  { apply preserves_modify. intros. now apply not_direct_record_entries. }
  intros _. apply preserves_bind; [apply preserves_lift|]. intros parameters.
  apply preserves_bind; [apply preserves_lift|]. intros g.
  apply preserves_bind; [now apply preserves_modify|]. intros _.
  apply preserves_bind.
  { apply preserves_modify. intros. now apply not_direct_record_entries. }
  intros _. destruct (fuse g) as [[outcome fused] entries].
  apply preserves_bind; [|intros _; apply preserves_lift].
  apply preserves_modify. intros. now apply not_direct_record_entries.
Qed.

Lemma extend_inputset_not_direct (samples : list PyAny) (previous index : nat) :
  preserves not_direct (extend_inputset previous index samples).
Proof.
  revert index. induction samples as [|sample samples IH]; intros index.
  - apply preserves_ret.
  - cbn [extend_inputset]. apply preserves_bind; [now apply preserves_modify|].
    intros _. apply preserves_bind_get. intros self Hself.
    destruct (negb _); [|apply IH].
    apply preserves_bind; [now apply preserves_put | intros _; apply preserves_raise].
Qed.

Lemma adjust_not_direct (tuner : Body -> list PyAny -> Result unit * Body) :
  preserves not_direct (adjust tuner).
Proof.
  unfold adjust. apply preserves_bind_get. intros self Hself.
  destruct (tuner _ _) as [outcome body'].
  apply preserves_bind; [now apply preserves_put | intros _; apply preserves_lift].
Qed.

Lemma ensure_graph_not_direct (action : string) :
  preserves not_direct (ensure_graph action).
Proof.
  unfold ensure_graph. apply preserves_bind_get. intros self Hself.
  destruct (graph self); [apply preserves_ret|].
  destruct (inputset self); [apply preserves_raise|].
  apply preserves_bind; [apply trace_not_direct|]. intros _.
  apply preserves_bind_get. intros self' _.
  destruct (graph self'); [apply preserves_ret | apply preserves_raise].
Qed.

Lemma on_self_not_direct {A} (m : M t A) :
  preserves not_direct m ->
  preserves (fun frame : Frame => not_direct (fst frame)) (on_self m).
Proof.
  intros Hm [self artifacts] Hself. unfold on_self, zoom. cbn [fst snd] in *.
  specialize (Hm self Hself). now destruct (m self).
Qed.

(** [_is_direct] is false in every circuit definition built by [__init__]
    and stays false through [_evaluate] and [__call__]. *)
Lemma not_direct_invariant :
  (forall function statuses self,
     __init__ function statuses = Ok self -> not_direct self)
  /\ (forall action new_inputset configuration,
        preserves (fun frame : Frame => not_direct (fst frame))
                  (_evaluate action new_inputset configuration))
  /\ (forall args kwargs, preserves not_direct (__call__ args kwargs)).
Proof.
  split; [|split].
  - intros function statuses self. unfold __init__.
    destruct (remove_known _ _ _) as [missing|]; cbn [rbind]; [|discriminate].
    destruct (negb _); [discriminate|].
    destruct (remove_known _ _ _) as [additional|]; cbn [rbind]; [|discriminate].
    destruct (negb _); [discriminate|].
    destruct (mapM _ statuses); cbn [rbind]; [|discriminate].
    now intros [= <-].
  - intros action new_inputset configuration. unfold _evaluate.
    apply preserves_bind_get. intros frame Hframe. cbv zeta.
    unfold not_direct in Hframe. rewrite Hframe.
    apply preserves_bind.
    { destruct new_inputset; [|apply preserves_ret].
      apply on_self_not_direct, extend_inputset_not_direct. }
    intros _. unfold measure_and_update.
    apply preserves_bind.
    { apply on_self_not_direct. unfold auto_adjust.
      apply preserves_bind.
      - destruct (auto_adjust_rounders configuration);
          [apply adjust_not_direct | apply preserves_ret].
      - intros _. destruct (auto_adjust_truncators configuration);
          [apply adjust_not_direct | apply preserves_ret]. }
    intros _. apply preserves_bind.
    { apply on_self_not_direct, ensure_graph_not_direct. }
    intros g. apply preserves_bind_get. intros frame' Hframe'.
    apply preserves_bind; [apply preserves_lift|]. intros bounds.
    destruct (update_with_bounds g bounds) as [outcome updated].
    apply preserves_bind.
    { apply on_self_not_direct. now apply preserves_modify. }
    intros _. apply preserves_bind; [apply preserves_lift|]. intros _.
    unfold add_graph. now apply preserves_modify.
  - intros args kwargs. unfold __call__.
    apply preserves_bind_get. intros self Hself.
    destruct (negb _); [apply preserves_raise|].
    apply preserves_bind.
    { destruct (graph self); [apply preserves_ret|].
      apply preserves_bind; [apply trace_not_direct|]. intros _.
      apply preserves_bind_get. intros self' _.
      destruct (graph self'); [apply preserves_ret | apply preserves_raise]. }
    intros g. apply preserves_bind; [now apply preserves_modify|].
    intros _. apply preserves_lift.
Qed.

End NotDirect.

(** *** The theorems at work on the small instance *)

Import Toy.

Example init_square :
  __init__ square [("x", "Encrypted")] = Ok (square_def []).
Proof. reflexivity. Qed.

Example init_missing_two :
  __init__ (H := toy) add_sub []
  = Raise (ValueError
             "Encryption statuses of parameters 'x' and 'y' of function 'add_sub' are not provided").
Proof. reflexivity. Qed.

Example init_additional :
  __init__ (H := toy) square [("x", "encrypted"); ("y", "clear")]
  = Raise (ValueError
             "Encryption status of 'y' is provided but it is not a parameter of function 'square'").
Proof. reflexivity. Qed.

Example init_invalid_status :
  __init__ (H := toy) square [("x", "secret")]
  = Raise (ValueError "'secret' is not a valid EncryptionStatus").
Proof. reflexivity. Qed.

Lemma init_checks_signature_witness :
  __init__ (H := toy) add_sub [("x", "encrypted")]
  = Raise (ValueError
             "Encryption status of parameter 'y' of function 'add_sub' is not provided").
Proof.
  assert (Hp : NoDup (parameters add_sub)).
  { repeat constructor; cbn; intuition discriminate. }
  assert (Hd : NoDup (map fst [("x", "encrypted")])).
  { repeat constructor; cbn; intuition discriminate. }
  destruct (init_checks_signature (H := toy) add_sub [("x", "encrypted")] Hp Hd) as [Hmissing _].
  apply Hmissing. exists "y". split; cbn; intuition discriminate.
Defined.

Example evaluate_malformed_second_sample :
  _evaluate "Compiling" (Some [PyInt 3; PyTuple [PyInt 1; PyInt 2]]) toy_configuration
            (square_def [PyInt 7], [])
  = (Raise (ValueError
              "Input #1 of your inputset is not well formed (expected a single value got a tuple of 2 values)"),
     (square_def [PyInt 7], [])).
Proof. reflexivity. Qed.

Lemma evaluate_malformed_inputset_rolls_back_witness :
  exists index sample,
    nth_error second_is_a_pair index = Some sample
    /\ List.length (as_tuple sample) <> 1
    /\ (forall j earlier, j < index ->
          nth_error second_is_a_pair j = Some earlier ->
          List.length (as_tuple earlier) = 1)
    /\ _evaluate "Compiling" (Some second_is_a_pair)
                 toy_configuration (square_def [PyInt 7], [])
       = (Raise (ValueError (malformed_message index 1 (List.length (as_tuple sample)))),
          (square_def [PyInt 7], [])).
Proof.
  apply (evaluate_malformed_inputset_rolls_back (H := toy) (square_def [PyInt 7]) "Compiling"
           second_is_a_pair toy_configuration []).
  - reflexivity.
  - exists (PyTuple [PyInt 1; PyInt 2]). split.
    + cbn. auto.
    + cbn. discriminate.
Defined.

Example evaluate_empty_inputset :
  _evaluate "Compiling" (Some []) toy_configuration (square_def [], [])
  = (Raise (RuntimeError "Compiling function 'square' without an inputset is not supported"),
     (square_def [], [])).
Proof. reflexivity. Qed.

Example evaluate_empty_inputset_tuned :
  _evaluate "Compiling" (Some []) Tuners.tuned_configuration (square_def [], [])
  = (Raise (RuntimeError "Compiling function 'square' without an inputset is not supported"),
     (square_def [], [])).
Proof. reflexivity. Qed.


Example evaluate_assigns_bit_width :
  _evaluate "Compiling" (Some [PyInt 3; PyInt 19]) toy_configuration (square_def [], [])
  = (Ok tt,
     (CircuitDef.with_graph (square_def [PyInt 3; PyInt 19]) (Some ("square", 5)),
      [GraphSnapshot "final" ("square", 5)])).
Proof. reflexivity. Qed.

Lemma evaluate_deterministic_witness :
  graph (fst (snd (_evaluate "Compiling" (Some [PyInt 3; PyInt 19]) toy_configuration
                             (square_def [], []))))
  = graph (fst (snd (_evaluate "Tracing" (Some [PyInt 19]) toy_configuration
                               (square_def [PyInt 3],
                                [GraphSnapshot "initial" ("square", 0)])))).
Proof.
  apply (evaluate_deterministic (H := toy)
           (square_def []) (square_def [PyInt 3]) _ _
           "Compiling" "Tracing" (Some [PyInt 3; PyInt 19]) (Some [PyInt 19])
           toy_configuration [] [GraphSnapshot "initial" ("square", 0)]
           [GraphSnapshot "final" ("square", 5)]
           [GraphSnapshot "initial" ("square", 0); GraphSnapshot "final" ("square", 5)]);
    reflexivity.
Defined.

End CircuitDefFacts.

(** ** Programs and the program compiler *)

Module ProgramFacts.
Import Toy.

Section Runtime.
Context `{External}.

Lemma mem_dict_item {V} (d : list (string * V)) (key : string) :
  mem key (map fst d) = true -> exists v, dict_item d key = Ok v.
Proof.
  unfold dict_item. induction d as [|[k v] d IH]; cbn; [discriminate|].
  destruct (String.eqb key k); cbn; [now eexists | exact IH].
Qed.

(** C4: on a circuit whose runtime is the execution runtime [simulate]
    fails on its assertion and runs nothing; on a circuit whose runtime is
    the simulation runtime [encrypt], [run] and [decrypt] (and so
    [encrypt_run_decrypt]) fail on theirs; in execution mode the three are
    the calls to the client and the server. *)
Theorem wrong_mode_is_refused (name : string) (graph : Graph)
    (args : list PyAny) (w : World) :
  (forall client server,
     let circuit := {| ProgramCircuit.name := name;
                       ProgramCircuit.rt := ExecutionRt client server;
                       ProgramCircuit.graph := graph |} in
     ProgramCircuit.simulate circuit args w = (Raise AssertionError, w)
     /\ ProgramCircuit.encrypt circuit args w = Client_encrypt client args name w
     /\ ProgramCircuit.decrypt circuit args w = Client_decrypt client args name w
     /\ ProgramCircuit.run circuit args w
        = bind (Client_evaluation_keys client)
               (fun evaluation_keys =>
                  Server_run server args (Some evaluation_keys) name) w)
  /\ (forall server,
        let circuit := {| ProgramCircuit.name := name;
                          ProgramCircuit.rt := SimulationRt server;
                          ProgramCircuit.graph := graph |} in
        ProgramCircuit.encrypt circuit args w = (Raise AssertionError, w)
        /\ ProgramCircuit.run circuit args w = (Raise AssertionError, w)
        /\ ProgramCircuit.decrypt circuit args w = (Raise AssertionError, w)
        /\ ProgramCircuit.encrypt_run_decrypt circuit args w
           = (Raise AssertionError, w)).
Proof.
  split.
  - intros client server circuit. repeat split.
  - intros server circuit. repeat split.
Qed.

(** C8: [encrypt_run_decrypt] is [encrypt], then [run] on its result, then
    [decrypt] on the result of [run], each on the runtime state left by
    the call before, with the outcome and the final state of the three
    calls made by hand. *)
Theorem encrypt_run_decrypt_composes (self : ProgramCircuit.t)
    (args : list PyAny) (w : World) :
  ProgramCircuit.encrypt_run_decrypt self args w
  = ProgramCircuit.composed_by_hand self args w
  /\ (forall client server,
        ProgramCircuit.rt self = ExecutionRt client server ->
        ProgramCircuit.encrypt_run_decrypt self args w
        = bind (Client_encrypt client args (ProgramCircuit.name self))
            (fun encrypted =>
               bind (Client_evaluation_keys client)
                 (fun evaluation_keys =>
                    bind (Server_run server [encrypted] (Some evaluation_keys)
                                     (ProgramCircuit.name self))
                      (fun evaluated =>
                         Client_decrypt client [evaluated]
                                        (ProgramCircuit.name self)))) w).
Proof.
  split.
  - unfold ProgramCircuit.encrypt_run_decrypt, ProgramCircuit.composed_by_hand, bind.
    destruct (ProgramCircuit.encrypt self args w) as [[encrypted|e] w1]; [|reflexivity].
    destruct (ProgramCircuit.run self [encrypted] w1) as [[evaluated|e] w2]; reflexivity.
  - intros client server Hrt.
    unfold ProgramCircuit.encrypt_run_decrypt, ProgramCircuit.encrypt,
      ProgramCircuit.run, ProgramCircuit.decrypt, bind, assert, lift, ret.
    rewrite Hrt. cbn [is_ExecutionRt Rt_client Rt_server]. unfold PyAny in *.
    destruct (Client_encrypt client args _ w) as [[encrypted|e] w1]; [|reflexivity].
    destruct (Client_evaluation_keys client w1) as [[evaluation_keys|e] w2];
      [|reflexivity].
    destruct (Server_run server [encrypted] _ _ w2) as [[evaluated|e] w3]; reflexivity.
Qed.

(** C1, as amended: without a configuration, or with neither mode
    enabled, construction fails on its assertion; with simulation enabled
    it builds the simulation runtime whether or not execution is enabled
    too; a program that is constructed has at least one mode enabled, the
    simulation runtime exactly when simulation is enabled and the execution
    runtime otherwise, and every circuit of the program has the runtime of
    the program. *)
Theorem init_runtime_mode (graphs : list (string * Graph)) (mlir : MlirModule)
    (compilation_context : CompilationContext)
    (configuration : option Configuration) (w : World) :
  (configuration = None
   \/ (exists c, configuration = Some c
                 /\ fhe_simulation c = false /\ fhe_execution c = false) ->
   Program.__init__ graphs mlir compilation_context configuration w
   = (Raise AssertionError, w))
  /\ (forall c, configuration = Some c -> fhe_simulation c = true ->
      Program.__init__ graphs mlir compilation_context configuration w
      = bind (Server_create mlir c true compilation_context)
             (fun server =>
                ret {| Program.configuration := c;
                       Program.graphs := graphs;
                       Program.mlir_module := mlir;
                       Program.compilation_context := compilation_context;
                       Program.rt := SimulationRt server |}) w)
  /\ (forall p w',
        Program.__init__ graphs mlir compilation_context configuration w = (Ok p, w') ->
        exists c,
          configuration = Some c
          /\ Program.configuration p = c
          /\ fhe_simulation c || fhe_execution c = true
          /\ is_SimulationRt (Program.rt p) = fhe_simulation c
          /\ is_ExecutionRt (Program.rt p) = negb (fhe_simulation c)
          /\ forall item circuit,
               Program.__getattr__ p item = Ok circuit ->
               ProgramCircuit.rt circuit = Program.rt p).
Proof.
  split; [|split].
  - intros [->|(c & -> & Hs & He)]; [reflexivity|].
    unfold Program.__init__, bind. cbn. now rewrite Hs, He.
  - intros c -> Hs. unfold Program.__init__, bind. cbn. now rewrite Hs.
  - intros p w'. unfold Program.__init__, Program.assert_that, bind, assert, ret, raise.
    destruct configuration as [c|]; [|discriminate].
    destruct (fhe_simulation c || fhe_execution c) eqn:Hmodes; [|discriminate].
    intros Hinit. exists c.
    assert (Hrt : Program.configuration p = c
                  /\ is_SimulationRt (Program.rt p) = fhe_simulation c
                  /\ is_ExecutionRt (Program.rt p) = negb (fhe_simulation c)).
    { destruct (fhe_simulation c).
      - destruct (Server_create mlir c true compilation_context w) as [[server|e] w1];
          [|discriminate].
        injection Hinit as <- _. now repeat split.
      - destruct (Server_create mlir c false compilation_context w) as [[server|e] w1];
          [|discriminate].
        destruct (use_insecure_key_cache c).
        + destruct (enable_unsafe_features c); [|discriminate].
          destruct (Program.is_some (insecure_key_cache_location c)); [|discriminate].
          destruct (Client_new _ _ w1) as [[client|e] w2]; [|discriminate].
          injection Hinit as <- _. now repeat split.
        + destruct (Client_new _ _ w1) as [[client|e] w2]; [|discriminate].
          injection Hinit as <- _. now repeat split. }
    destruct Hrt as (Hc & Hsim & Hexe). repeat split; try assumption.
    intros item circuit. unfold Program.__getattr__.
    destruct (mem item (map fst (Program.graphs p))); cbn [negb]; [|intros [=]].
    destruct (dict_item (Program.graphs p) item); cbn [rbind]; [|intros [=]].
    now intros [= <-].
Qed.

End Runtime.

Section Compiler.
Context `{External}.
Import ProgramCompiler.

(** C5: when the effective configuration (the configuration passed,
    forked with the keyword arguments) is not composable, [compile] raises
    its [RuntimeError] and leaves the session, circuits included, as it
    was; a call that returns or changes the session had a composable
    effective configuration. *)
Theorem compile_requires_composable (inputsets : option (list (string * list PyAny)))
    (configuration : option Configuration) (kwargs : list (string * PyAny))
    (s : Session) :
  (forall c,
     effective_configuration (compiler s) configuration kwargs = Ok (IsConfiguration c) ->
     composable c = false ->
     compile inputsets configuration kwargs s
     = (Raise (RuntimeError "Programs can only be compiled with `composable` activated."), s))
  /\ (forall outcome s',
        compile inputsets configuration kwargs s = (outcome, s') ->
        is_ok outcome = true \/ s' <> s ->
        exists c,
          effective_configuration (compiler s) configuration kwargs
          = Ok (IsConfiguration c)
          /\ composable c = true).
Proof.
  split.
  - intros c Heff Hcomp. unfold compile, bind, get, lift. rewrite Heff. cbn.
    now rewrite Hcomp.
  - intros outcome s'. unfold compile, bind, get, lift.
    destruct (effective_configuration _ _ _) as [[c|circuit]|e]; cbn.
    + destruct (composable c) eqn:Hcomp; cbn.
      * intros _ _. now exists c.
      * intros [= <- <-] [Hok|Hne]; [discriminate | congruence].
    + intros [= <- <-] [Hok|Hne]; [discriminate | congruence].
    + intros [= <- <-] [Hok|Hne]; [discriminate | congruence].
Qed.

(** C10: [__getattr__] raises [AttributeError] for a name that is no
    circuit name, and [compile] without a configuration raises an
    [AttributeError] and leaves the session as it was: the one of the
    lookup of [default_configuration], or, when a circuit has that name,
    the one of the first attribute read on the circuit definition. *)
Theorem compile_without_configuration (inputsets : option (list (string * list PyAny)))
    (kwargs : list (string * PyAny)) (s : Session) :
  (forall item,
     mem item (map fst (circuits (compiler s))) = false ->
     __getattr__ (compiler s) item = Raise (AttributeError ("No attribute " ++ item)))
  /\ (exists message,
        compile inputsets None kwargs s = (Raise (AttributeError message), s)
        /\ (mem "default_configuration" (map fst (circuits (compiler s))) = false ->
            message = "No attribute default_configuration")).
Proof.
  split.
  - intros item Hmem. unfold __getattr__. now rewrite Hmem.
  - unfold compile, bind, get, lift, effective_configuration, __getattr__.
    destruct (mem "default_configuration" (map fst (circuits (compiler s)))) eqn:Hmem;
      cbn [negb rbind].
    + destruct (mem_dict_item _ _ Hmem) as [circuit Hitem]. rewrite Hitem.
      cbn [rbind]. destruct (Nat.eqb (List.length kwargs) 0); cbn.
      * eexists. split; [reflexivity | discriminate].
      * eexists. split; [reflexivity | discriminate].
    + cbn. eexists. split; reflexivity.
Qed.

End Compiler.

(** *** The theorems at work on the small instance *)

Example simulate_in_execution_mode :
  ProgramCircuit.simulate (square_circuit (ExecutionRt tt false)) [PyInt 5] 0
  = (Raise AssertionError, 0).
Proof. reflexivity. Qed.

Example simulate_in_simulation_mode :
  ProgramCircuit.simulate (square_circuit (SimulationRt true)) [PyInt 5] 0
  = (Ok (PyInt 5), 1).
Proof. reflexivity. Qed.

Lemma encrypt_run_decrypt_composes_witness :
  ProgramCircuit.encrypt_run_decrypt (square_circuit (ExecutionRt tt false)) [PyInt 5] 0
  = (Ok (PyInt 5), 4).
Proof.
  pose proof (proj2 (encrypt_run_decrypt_composes (H := toy)
                       (square_circuit (ExecutionRt tt false)) [PyInt 5] 0)
                    tt false eq_refl) as Hchain.
  rewrite Hchain. reflexivity.
Defined.

(** C1, the claim as stated fails: with both modes enabled construction
    returns a program, on the simulation runtime. *)
Lemma init_accepts_both_modes :
  fhe_simulation both_modes = true
  /\ fhe_execution both_modes = true
  /\ Program.__init__ (H := toy) [("square", ("square", 5))] ["square"] tt
                      (Some both_modes) 0
     = (Ok {| Program.configuration := both_modes;
              Program.graphs := [("square", ("square", 5))];
              Program.mlir_module := ["square"];
              Program.compilation_context := tt;
              Program.rt := SimulationRt true |},
        1).
Proof. repeat split. Qed.

Lemma init_runtime_mode_witness :
  Program.__init__ (H := toy) [] [] tt None 0 = (Raise AssertionError, 0)
  /\ (forall p w',
        Program.__init__ (H := toy) [] [] tt (Some execution_only) 0 = (Ok p, w') ->
        is_ExecutionRt (Program.rt p) = true).
Proof.
  split.
  - apply (init_runtime_mode (H := toy) [] [] tt None 0). now left.
  - intros p w' Hinit.
    destruct (init_runtime_mode (H := toy) [] [] tt (Some execution_only) 0)
      as (_ & _ & Hbuilt).
    destruct (Hbuilt p w' Hinit) as (c & Hc & _ & _ & _ & Hexecution & _).
    injection Hc as <-. exact Hexecution.
Defined.

Example compile_square :
  fst (ProgramCompiler.compile (Some [("square", [PyInt 3; PyInt 19])])
                               (Some execution_only) [] session)
  = Ok {| Program.configuration := execution_only;
          Program.graphs := [("square", ("square", 5))];
          Program.mlir_module := ["square"];
          Program.compilation_context := tt;
          Program.rt := ExecutionRt tt false |}.
Proof. reflexivity. Qed.

Example compile_empty_inputset :
  fst (ProgramCompiler.compile (Some [("square", [])]) (Some execution_only) [] session)
  = Raise (RuntimeError "Compiling function 'square' without an inputset is not supported").
Proof. reflexivity. Qed.

Lemma compile_requires_composable_witness :
  ProgramCompiler.compile (Some [("square", [PyInt 3])]) (Some toy_configuration) []
                          session
  = (Raise (RuntimeError "Programs can only be compiled with `composable` activated."),
     session).
Proof.
  apply (proj1 (compile_requires_composable (H := toy)
                  (Some [("square", [PyInt 3])]) (Some toy_configuration) [] session)
               toy_configuration); reflexivity.
Defined.

Lemma compile_without_configuration_witness :
  exists message,
    ProgramCompiler.compile (Some [("square", [PyInt 3])]) None [] session
    = (Raise (AttributeError message), session)
    /\ message = "No attribute default_configuration".
Proof.
  destruct (compile_without_configuration (H := toy)
              (Some [("square", [PyInt 3])]) [] session)
    as (_ & message & Hcompile & Hmessage).
  exists message. split; [exact Hcompile | apply Hmessage; reflexivity].
Defined.

End ProgramFacts.

(** ** More on [round] *)

Module RoundGenMore.
Import RoundGen RoundGenFacts.
Local Open Scope Z_scope.

(** The shift counts of [round]: a negative one raises. *)
Lemma round_raises (val p_start p_end : Z) (signed : bool) :
  p_start <= p_end ->
  round val p_start p_end signed = Raise (ValueError "negative shift count").
Proof.
  intros Hp. unfold round, lshift.
  destruct (Z.ltb_spec (p_start - p_end - 1) 0) as [_|]; [reflexivity | lia].
Qed.

Lemma round_signed_raises (val p_start p_end : Z) :
  p_end < p_start -> p_end <= 0 ->
  round val p_start p_end true = Raise (ValueError "negative shift count").
Proof.
  intros Hp He. pose proof (round_unsigned val p_start p_end Hp) as Hu.
  revert Hu. unfold round, lshift, rshift.
  destruct (Z.ltb_spec (p_start - p_end - 1) 0) as [|_]; [lia|]. cbn [rbind].
  destruct (if negb _ then _ else _) as [val'|e]; cbn [rbind]; [|discriminate].
  destruct (Z.ltb_spec (p_start - p_end) 0) as [|_]; [lia|]. cbn [rbind].
  intros _. destruct (Z.ltb_spec (p_end - 1) 0) as [_|]; [reflexivity | lia].
Qed.

(** The value of [round] where it returns: the quotient rounded half
    up, and its negation in the signed path from [2^(p_end-1)] on. *)
Lemma round_unsigned_quotient (val p_start p_end : Z) :
  p_end < p_start ->
  round val p_start p_end false
  = Ok ((val + 2 ^ (p_start - p_end - 1)) / 2 ^ (p_start - p_end)).
Proof.
  intros Hp. rewrite round_unsigned by assumption. f_equal.
  rewrite half_up_div, Z.shiftr_div_pow2 by lia. reflexivity.
Qed.

Lemma round_signed_quotient (val p_start p_end : Z) :
  0 < p_end -> p_end < p_start ->
  round val p_start p_end true
  = Ok (let output := (val + 2 ^ (p_start - p_end - 1)) / 2 ^ (p_start - p_end) in
        if 2 ^ (p_end - 1) <=? output then - output else output).
Proof.
  intros He Hp.
  rewrite (round_signed val p_start p_end _ Hp He
             (round_unsigned_quotient val p_start p_end Hp)).
  cbv zeta. now rewrite Z.geb_leb.
Qed.

(** X1: [round] in closed form on every input: it raises [ValueError] for a
    negative shift count exactly when [p_start <= p_end], or when the
    signed path is taken with [p_end <= 0]; otherwise it returns
    [floor((val + 2^(p_delta-1)) / 2^p_delta)], negated in the signed path
    when that is at least [2^(p_end-1)]. *)
Theorem round_closed_form (val p_start p_end : Z) (signed : bool) :
  round val p_start p_end signed
  = let p_delta := p_start - p_end in
    let output := (val + 2 ^ (p_delta - 1)) / 2 ^ p_delta in
    if (p_end <? p_start) && (negb signed || (0 <? p_end)) then
      Ok (if signed && (2 ^ (p_end - 1) <=? output) then - output else output)
    else Raise (ValueError "negative shift count").
Proof.
  cbv zeta. destruct (Z.ltb_spec p_end p_start) as [Hp|Hp]; cbn [andb].
  - destruct signed; cbn [negb orb andb].
    + destruct (Z.ltb_spec 0 p_end) as [He|He].
      * now apply round_signed_quotient.
      * now apply round_signed_raises.
    + now apply round_unsigned_quotient.
  - now apply round_raises.
Qed.

Lemma pow2_split (p_start p_end : Z) :
  0 <= p_end -> p_end < p_start ->
  2 ^ p_start = 2 ^ p_end * 2 ^ (p_start - p_end).
Proof.
  intros. rewrite <- Z.pow_add_r by lia. f_equal. lia.
Qed.

Lemma pow2_half (d : Z) : 1 <= d -> 2 ^ d = 2 * 2 ^ (d - 1).
Proof.
  intros. rewrite <- Z.pow_succ_r by lia. f_equal. lia.
Qed.

(** X2: the unsigned rounding of a [p_start]-bit value lies between [0] and
    [2^p_end] included: it overflows [p_end] bits, and then equals
    [2^p_end], exactly for the values from [2^p_start - 2^(p_delta-1)]
    on. *)
Theorem round_unsigned_range (val p_start p_end : Z) :
  0 <= p_end -> p_end < p_start -> 0 <= val < 2 ^ p_start ->
  exists output,
    round val p_start p_end false = Ok output
    /\ 0 <= output <= 2 ^ p_end
    /\ (output = 2 ^ p_end <-> 2 ^ p_start - 2 ^ (p_start - p_end - 1) <= val).
Proof.
  intros He Hp Hval. rewrite round_unsigned_quotient by assumption.
  eexists. split; [reflexivity|].
  pose proof (pow2_split p_start p_end He Hp) as Hsplit.
  pose proof (pow2_half (p_start - p_end) ltac:(lia)) as Hhalf.
  assert (Hh : 0 < 2 ^ (p_start - p_end - 1)) by (apply Z.pow_pos_nonneg; lia).
  assert (He' : 0 < 2 ^ p_end) by (apply Z.pow_pos_nonneg; lia).
  set (h := 2 ^ (p_start - p_end - 1)) in *.
  set (D := 2 ^ (p_start - p_end)) in *.
  set (E := 2 ^ p_end) in *.
  assert (HD : 0 < D) by lia.
  pose proof (Z.div_mod (val + h) D ltac:(lia)) as Hdm.
  pose proof (Z.mod_pos_bound (val + h) D HD) as Hmod.
  set (q := (val + h) / D) in *. set (r := (val + h) mod D) in *.
  repeat split; nia.
Qed.

(** X3: the signed rounding of a signed [p_start]-bit value always fits
    [p_end] signed bits: it is the rounded quotient, except that the one
    quotient out of range, [2^(p_end-1)], is returned as [-2^(p_end-1)]. *)
Theorem round_signed_fits (val p_start p_end : Z) :
  0 < p_end -> p_end < p_start ->
  - 2 ^ (p_start - 1) <= val < 2 ^ (p_start - 1) ->
  exists result,
    round val p_start p_end true = Ok result
    /\ - 2 ^ (p_end - 1) <= result < 2 ^ (p_end - 1)
    /\ (result = (val + 2 ^ (p_start - p_end - 1)) / 2 ^ (p_start - p_end)
        \/ (val + 2 ^ (p_start - p_end - 1)) / 2 ^ (p_start - p_end) = 2 ^ (p_end - 1)
           /\ result = - 2 ^ (p_end - 1)).
Proof.
  intros He Hp Hval. rewrite round_signed_quotient by assumption. cbv zeta.
  eexists. split; [reflexivity|].
  pose proof (pow2_split (p_start - 1) (p_end - 1) ltac:(lia) ltac:(lia)) as Hsplit.
  replace (p_start - 1 - (p_end - 1)) with (p_start - p_end) in Hsplit by lia.
  pose proof (pow2_half (p_start - p_end) ltac:(lia)) as Hhalf.
  assert (Hh : 0 < 2 ^ (p_start - p_end - 1)) by (apply Z.pow_pos_nonneg; lia).
  assert (He' : 0 < 2 ^ (p_end - 1)) by (apply Z.pow_pos_nonneg; lia).
  set (h := 2 ^ (p_start - p_end - 1)) in *.
  set (D := 2 ^ (p_start - p_end)) in *.
  set (E := 2 ^ (p_end - 1)) in *.
  set (S := 2 ^ (p_start - 1)) in *.
  assert (HD : 0 < D) by lia.
  pose proof (Z.div_mod (val + h) D ltac:(lia)) as Hdm.
  pose proof (Z.mod_pos_bound (val + h) D HD) as Hmod.
  set (q := (val + h) / D) in *. set (r := (val + h) mod D) in *.
  assert (Hq : - E <= q <= E) by nia.
  destruct (Z.leb_spec E q); split; lia.
Qed.

(** X4: the unsigned rounding, scaled back by [2^p_delta], is within half a
    step of the value, ties going up, and is exact on the multiples of
    [2^p_delta]. *)
Theorem round_error_bound (val p_start p_end : Z) :
  p_end < p_start ->
  exists output,
    round val p_start p_end false = Ok output
    /\ - 2 ^ (p_start - p_end - 1) < output * 2 ^ (p_start - p_end) - val
       <= 2 ^ (p_start - p_end - 1)
    /\ (val mod 2 ^ (p_start - p_end) = 0 ->
        output * 2 ^ (p_start - p_end) = val).
Proof.
  intros Hp. rewrite round_unsigned_quotient by assumption.
  eexists. split; [reflexivity|].
  pose proof (pow2_half (p_start - p_end) ltac:(lia)) as Hhalf.
  assert (Hh : 0 < 2 ^ (p_start - p_end - 1)) by (apply Z.pow_pos_nonneg; lia).
  set (h := 2 ^ (p_start - p_end - 1)) in *.
  set (D := 2 ^ (p_start - p_end)) in *.
  assert (HD : 0 < D) by lia.
  pose proof (Z.div_mod (val + h) D ltac:(lia)) as Hdm.
  pose proof (Z.mod_pos_bound (val + h) D HD) as Hmod.
  split; [nia|].
  intros Hexact.
  pose proof (Z.div_mod val D ltac:(lia)) as Hv. rewrite Hexact in Hv.
  set (q := (val + h) / D) in *. set (r := (val + h) mod D) in *.
  set (k := val / D) in *.
  assert (q = k) by nia. nia.
Qed.

(** X5: the unsigned rounding is monotone in the value. *)
Theorem round_monotone (val1 val2 p_start p_end output1 output2 : Z) :
  val1 <= val2 ->
  round val1 p_start p_end false = Ok output1 ->
  round val2 p_start p_end false = Ok output2 ->
  output1 <= output2.
Proof.
  intros Hle. destruct (Z.ltb_spec p_end p_start) as [Hp|Hp].
  2:{ rewrite !round_raises by assumption. discriminate. }
  rewrite !round_unsigned_quotient by assumption.
  intros [= <-] [= <-].
  apply Z.div_le_mono; [apply Z.pow_pos_nonneg; lia | lia].
Qed.

Lemma round_unsigned_range_witness :
  exists output,
    round 14 4 2 false = Ok output
    /\ 0 <= output <= 2 ^ 2
    /\ (output = 2 ^ 2 <-> 2 ^ 4 - 2 ^ (4 - 2 - 1) <= 14).
Proof.
  apply (round_unsigned_range 14 4 2); [lia | lia | cbn; lia].
Defined.

Lemma round_signed_fits_witness :
  exists result,
    round 7 4 2 true = Ok result
    /\ - 2 ^ (2 - 1) <= result < 2 ^ (2 - 1)
    /\ (result = (7 + 2 ^ (4 - 2 - 1)) / 2 ^ (4 - 2)
        \/ (7 + 2 ^ (4 - 2 - 1)) / 2 ^ (4 - 2) = 2 ^ (2 - 1)
           /\ result = - 2 ^ (2 - 1)).
Proof.
  apply (round_signed_fits 7 4 2); [lia | lia | cbn; lia].
Defined.

Lemma round_error_bound_witness :
  exists output,
    round 13 4 2 false = Ok output
    /\ - 2 ^ (4 - 2 - 1) < output * 2 ^ (4 - 2) - 13 <= 2 ^ (4 - 2 - 1)
    /\ (13 mod 2 ^ (4 - 2) = 0 -> output * 2 ^ (4 - 2) = 13).
Proof.
  apply (round_error_bound 13 4 2). lia.
Defined.

Lemma round_monotone_witness : 1 <= 2.
Proof.
  apply (round_monotone 5 9 4 2 1 2); [lia | reflexivity | reflexivity].
Defined.

End RoundGenMore.

(** ** More on [CircuitDef] *)

Module CircuitDefMore.
Import CircuitDef CircuitDefFacts.

Section More.
Context `{External}.

(** A property of a circuit definition that depends neither on its graph
    nor on its artifacts is kept by [_trace]. *)
Lemma trace_keeps (P : t -> Prop) (sample : PyAny) :
  (forall self g, P self -> P (with_graph self g)) ->
  (forall self a, P self -> P (with_artifacts self a)) ->
  preserves P (_trace sample).
Proof.
  intros Hgraph Hartifacts.
  assert (Hentries : forall entries self, P self -> P (record_entries entries self)).
  { intros entries self Hself. unfold record_entries.
    destruct (artifacts self); [now apply Hartifacts | assumption]. }
  unfold _trace. apply preserves_bind; [apply preserves_get|]. intros self.
  apply preserves_bind; [apply preserves_modify; auto|]. intros _.
  apply preserves_bind; [apply preserves_lift|]. intros parameters.
  apply preserves_bind; [apply preserves_lift|]. intros g.
  apply preserves_bind; [apply preserves_modify; auto|]. intros _.
  apply preserves_bind; [apply preserves_modify; auto|]. intros _.
  destruct (fuse g) as [[outcome fused] entries].
  apply preserves_bind; [apply preserves_modify; auto | intros _; apply preserves_lift].
Qed.

Lemma trace_keeps_inputset (sample : PyAny) (self : t) :
  inputset (snd (_trace sample self)) = inputset self.
Proof.
  now apply (trace_keeps (fun s => inputset s = inputset self) sample).
Qed.

(** X6: [_trace] never touches the inputset, the function or the statuses.
    When describing the parameters or tracing raises, the graph is what it
    was; once the tracer has returned, a graph is in place, the one the
    fuser leaves, also when fusing raises. *)
Theorem trace_outcomes (sample : PyAny) (self : t) :
  inputset (snd (_trace sample self)) = inputset self
  /\ function (snd (_trace sample self)) = function self
  /\ parameter_encryption_statuses (snd (_trace sample self))
     = parameter_encryption_statuses self
  /\ match trace_parameters self sample with
     | Raise e =>
         fst (_trace sample self) = Raise e
         /\ graph (snd (_trace sample self)) = graph self
     | Ok parameters =>
         match Tracer_trace (function self) parameters false with
         | Raise e =>
             fst (_trace sample self) = Raise e
             /\ graph (snd (_trace sample self)) = graph self
         | Ok g =>
             fst (_trace sample self) = fst (fst (fuse g))
             /\ graph (snd (_trace sample self)) = Some (snd (fst (fuse g)))
         end
     end.
Proof.
  split; [apply trace_keeps_inputset|].
  split; [now apply (trace_keeps (fun s => function s = function self) sample)|].
  split; [now apply (trace_keeps (fun s => parameter_encryption_statuses s
                                          = parameter_encryption_statuses self) sample)|].
  unfold _trace, bind, get, modify, lift, record_entries.
  destruct (trace_parameters self sample) as [parameters|e].
  - destruct (Tracer_trace (function self) parameters false) as [g|e].
    + destruct (fuse g) as [[outcome fused] entries].
      destruct self as [n f statuses samples gr [a|] direct values];
        destruct outcome as [[]|e]; cbn; now split.
    + destruct self as [n f statuses samples gr [a|] direct values]; cbn; now split.
  - destruct self as [n f statuses samples gr [a|] direct values]; cbn; now split.
Qed.

Lemma map_snd_combine {A B} (l1 : list A) (l2 : list B) :
  map snd (combine l1 l2) = firstn (List.length l1) l2.
Proof.
  revert l2. induction l1 as [|a l1 IH]; intros [|b l2]; cbn; try reflexivity.
  now rewrite IH.
Qed.

Lemma combine_app_longer {A B} (l1 extra : list A) (l2 : list B) :
  List.length l1 = List.length l2 -> combine (l1 ++ extra) l2 = combine l1 l2.
Proof.
  revert l2. induction l1 as [|a l1 IH]; intros [|b l2]; cbn; try discriminate.
  - now destruct extra.
  - intros [= Hlen]. now rewrite IH.
Qed.

Lemma mapM_names {A B} (f : A -> Result B) (name : A -> string) (name' : B -> string)
    (l : list A) (l' : list B) :
  (forall a b, f a = Ok b -> name' b = name a) ->
  mapM f l = Ok l' -> map name' l' = map name l.
Proof.
  intros Hname. revert l'. induction l as [|a l IH]; cbn; intros l'.
  - now intros [= <-].
  - destruct (f a) as [b|] eqn:Hfa; [|discriminate].
    destruct (mapM f l) as [bs|]; [|discriminate].
    intros [= <-]. cbn. rewrite (Hname a b Hfa). f_equal. now apply IH.
Qed.

(** X7: [_trace] checks no arity: the traced parameters of a tuple sample
    are the first declared names, as many as the sample has components,
    and the components beyond the declared parameters are ignored. *)
Theorem trace_parameters_zip (self : t) (items extra : list PyAny) :
  (forall parameters,
     trace_parameters self (PyTuple items) = Ok parameters ->
     map fst parameters
     = firstn (List.length items) (map fst (parameter_encryption_statuses self)))
  /\ (List.length items = List.length (parameter_encryption_statuses self) ->
      trace_parameters self (PyTuple (items ++ extra))
      = trace_parameters self (PyTuple items)).
Proof.
  unfold trace_parameters, sample_arguments. cbn [is_tuple].
  rewrite !orb_true_r. cbn [rbind]. split.
  - intros parameters Hparameters.
    apply (mapM_names _ (fun item => fst (snd item)) fst) in Hparameters.
    + rewrite Hparameters, <- map_map, map_snd_combine. now rewrite firstn_map.
    + intros [arg [param status]] [param' description]. cbn.
      destruct (ValueDescription_of arg _); cbn; [|discriminate].
      now intros [= -> _].
  - intros Hlen. now rewrite combine_app_longer.
Qed.


Lemma on_self_preserves {A} (P : t -> Prop) (m : M t A) :
  preserves P m -> preserves (fun frame : Frame => P (fst frame)) (on_self m).
Proof.
  intros Hm [self artifacts] Hself. unfold on_self, zoom. cbn [fst snd] in *.
  specialize (Hm self Hself). now destruct (m self).
Qed.

Lemma ensure_graph_keeps_inputset (action : string) (samples : list PyAny) :
  preserves (fun self => inputset self = samples) (ensure_graph action).
Proof.
  unfold ensure_graph. apply preserves_bind_get. intros self Hself.
  destruct (graph self); [apply preserves_ret|].
  destruct (inputset self); [apply preserves_raise|].
  apply preserves_bind; [now apply trace_keeps|]. intros _.
  apply preserves_bind_get. intros self' _.
  destruct (graph self'); [apply preserves_ret | apply preserves_raise].
Qed.

(** Once the inputset is extended nothing in [_evaluate] changes it. *)
Lemma measure_and_update_keeps_inputset (action : string)
    (configuration : Configuration) (samples : list PyAny) :
  preserves (fun frame : Frame => inputset (fst frame) = samples)
            (measure_and_update action configuration).
Proof.
  unfold measure_and_update. apply preserves_bind.
  { apply (on_self_preserves (fun self => inputset self = samples)).
    intros self Hself.
    destruct (auto_adjust_keeps configuration self) as (_ & Hinputset & _).
    congruence. }
  intros _. apply preserves_bind.
  { apply (on_self_preserves (fun self => inputset self = samples)).
    apply ensure_graph_keeps_inputset. }
  intros g. apply preserves_bind_get. intros frame Hframe.
  apply preserves_bind; [apply preserves_lift|]. intros bounds.
  destruct (update_with_bounds g bounds) as [outcome updated].
  apply preserves_bind.
  { apply (on_self_preserves (fun self => inputset self = samples)).
    now apply preserves_modify. }
  intros _. apply preserves_bind; [apply preserves_lift|]. intros _.
  unfold add_graph. now apply preserves_modify.
Qed.

(** A successful measure ends on the snapshot of the graph it leaves. *)
Lemma measure_and_update_final (action : string) (configuration : Configuration)
    (self self' : t) (artifacts artifacts' : CircuitDebugArtifacts Graph) :
  measure_and_update action configuration (self, artifacts)
  = (Ok tt, (self', artifacts')) ->
  exists g, graph self' = Some g
            /\ artifacts' = (artifacts ++ [GraphSnapshot "final" g])%list.
Proof.
  unfold measure_and_update, bind, on_self, zoom. cbn [fst snd].
  destruct (auto_adjust configuration self) as [[[]|e] tuned]; [|discriminate].
  cbn [fst snd].
  destruct (ensure_graph action tuned) as [[g|e] traced]; [|discriminate].
  unfold get, lift. cbn [fst snd].
  destruct (measure_bounds g (inputset traced)) as [bounds|e]; [|discriminate].
  destruct (update_with_bounds g bounds) as [outcome updated].
  unfold modify, add_graph. cbn [fst snd].
  destruct outcome as [[]|e]; [|discriminate].
  intros [= <- <-]. now exists updated.
Qed.

(** X8: an evaluation that returns leaves the accumulated inputset extended
    by all the samples passed, in order, leaves a graph, and has appended
    to the artifacts passed exactly the ["final"] snapshot of that
    graph. *)
Theorem evaluate_success (self self' : t) (action : string)
    (new_inputset : option (list PyAny)) (configuration : Configuration)
    (artifacts artifacts' : CircuitDebugArtifacts Graph) :
  _is_direct self = false ->
  _evaluate action new_inputset configuration (self, artifacts)
  = (Ok tt, (self', artifacts')) ->
  inputset self' = (inputset self ++ passed new_inputset)%list
  /\ exists g, graph self' = Some g
               /\ artifacts' = (artifacts ++ [GraphSnapshot "final" g])%list.
Proof.
  intros Hdirect. rewrite evaluate_not_direct by assumption.
  destruct (extend_inputset_cases (passed new_inputset)
              (List.length (inputset self)) 0 self) as [Hok|(e & s & Hraise)].
  - rewrite Hok. intros Hrun. split.
    + pose proof (measure_and_update_keeps_inputset action configuration
                    (inputset self ++ passed new_inputset)
                    (with_inputset self (inputset self ++ passed new_inputset),
                     artifacts) eq_refl) as Hkept.
      now rewrite Hrun in Hkept.
    + now apply (measure_and_update_final action configuration _ _ _ _ Hrun).
  - rewrite Hraise. discriminate.
Qed.

(** X9: only a sample of the wrong arity rolls the inputset back: when
    every sample passed has the declared arity, the samples stay
    accumulated whatever the evaluation does next, return or raise. *)
Theorem evaluate_no_rollback_later (self : t) (action : string)
    (new_inputset : option (list PyAny)) (configuration : Configuration)
    (artifacts : CircuitDebugArtifacts Graph) :
  _is_direct self = false ->
  (forall sample, In sample (passed new_inputset) ->
     List.length (as_tuple sample)
     = List.length (parameter_encryption_statuses self)) ->
  inputset (fst (snd (_evaluate action new_inputset configuration (self, artifacts))))
  = (inputset self ++ passed new_inputset)%list.
Proof.
  intros Hdirect Hall. rewrite evaluate_not_direct by assumption.
  rewrite extend_inputset_well_formed by assumption.
  now apply (measure_and_update_keeps_inputset action configuration
               (inputset self ++ passed new_inputset)
               (with_inputset self (inputset self ++ passed new_inputset), artifacts)).
Qed.

(** X10: with a graph in place and the auto tuners off, [_evaluate] does
    not trace: the bounds are measured by that graph on the accumulated
    inputset; when measuring raises the samples stay and the graph is
    kept; otherwise the graph is replaced by what [update_with_bounds]
    leaves, also when it raises, and the ["final"] snapshot is recorded
    only when it returns. *)
Theorem evaluate_existing_graph (self : t) (g : Graph) (action : string)
    (new_inputset : option (list PyAny)) (configuration : Configuration)
    (artifacts : CircuitDebugArtifacts Graph) :
  _is_direct self = false ->
  graph self = Some g ->
  auto_adjust_rounders configuration = false ->
  auto_adjust_truncators configuration = false ->
  (forall sample, In sample (passed new_inputset) ->
     List.length (as_tuple sample)
     = List.length (parameter_encryption_statuses self)) ->
  let accumulated := (inputset self ++ passed new_inputset)%list in
  _evaluate action new_inputset configuration (self, artifacts)
  = match measure_bounds g accumulated with
    | Raise e => (Raise e, (with_inputset self accumulated, artifacts))
    | Ok bounds =>
        let (outcome, updated) := update_with_bounds g bounds in
        (outcome,
         (with_graph (with_inputset self accumulated) (Some updated),
          match outcome with
          | Ok _ => (artifacts ++ [GraphSnapshot "final" updated])%list
          | Raise _ => artifacts
          end))
    end.
Proof.
  intros Hdirect Hgraph Hrounders Htruncators Hall accumulated.
  rewrite evaluate_not_direct by assumption.
  rewrite extend_inputset_well_formed by assumption. fold accumulated.
  unfold measure_and_update, auto_adjust, ensure_graph, bind, on_self, zoom, get, ret,
    lift, modify, add_graph.
  rewrite Hrounders, Htruncators. cbn [fst snd graph with_inputset inputset].
  rewrite Hgraph. cbn [fst snd graph with_inputset inputset].
  destruct (measure_bounds g accumulated) as [bounds|e]; [|reflexivity].
  destruct (update_with_bounds g bounds) as [[[]|e] updated]; reflexivity.
Qed.

(** X11: [__call__] refuses keyword arguments and then changes nothing; with
    a graph in place it appends its sample (the argument, or the tuple of
    the arguments) whatever the graph returns; a first call whose tracing
    raises records no sample; a call that returns has recorded exactly its
    sample and has a graph. *)
Theorem call_records_sample (args : list PyAny) (kwargs : list (string * PyAny))
    (self : t) :
  let sample := match args with [arg] => arg | _ => PyTuple args end in
  (kwargs <> [] ->
   __call__ args kwargs self
   = (Raise (RuntimeError ("Calling function '" ++ __name__ (function self)
                           ++ "' with kwargs is not supported")),
      self))
  /\ (forall g, graph self = Some g ->
      __call__ args [] self
      = (Graph_call g args, with_inputset self (inputset self ++ [sample])))
  /\ (forall e, graph self = None -> fst (_trace sample self) = Raise e ->
      fst (__call__ args [] self) = Raise e
      /\ inputset (snd (__call__ args [] self)) = inputset self)
  /\ (forall value self',
        __call__ args [] self = (Ok value, self') ->
        inputset self' = (inputset self ++ [sample])%list
        /\ exists g, graph self' = Some g).
Proof.
  intros sample. split; [|split; [|split]].
  - intros Hkwargs. unfold __call__, bind, get, raise.
    destruct kwargs; [contradiction | reflexivity].
  - intros g Hgraph. unfold __call__, bind, get, ret, modify, lift. cbn.
    rewrite Hgraph. reflexivity.
  - intros e Hgraph Htrace. unfold __call__, bind, get. cbn -[_trace].
    rewrite Hgraph. fold sample.
    pose proof (trace_keeps_inputset sample self) as Hkept.
    destruct (_trace sample self) as [[[]|e'] traced]; cbn [fst snd] in *; [discriminate|].
    injection Htrace as ->. now split.
  - intros value self'. unfold __call__, bind, get, ret, raise, modify, lift. cbn -[_trace].
    fold sample. destruct (graph self) as [g|] eqn:Hgraph.
    + destruct (Graph_call g args); [|discriminate].
      intros [= _ <-]. cbn. split; [reflexivity | now exists g].
    + pose proof (trace_keeps_inputset sample self) as Hkept.
      destruct (_trace sample self) as [[[]|e'] traced]; cbn [fst snd] in *; [|discriminate].
      destruct (graph traced) as [g|] eqn:Htraced; [|discriminate].
      destruct (Graph_call g args); [|discriminate].
      intros [= _ <-]. cbn. split; [now rewrite Hkept | now exists g].
Qed.

End More.

(** *** On the small instance *)

Import Toy Samples.

Example trace_drops_extra_component :
  trace_parameters add_sub_def (PyTuple [PyInt 1; PyInt 2; PyInt 3])
  = Ok [("x", true); ("y", true)].
Proof. reflexivity. Qed.

Example trace_with_missing_component :
  trace_parameters add_sub_def (PyTuple [PyInt 1]) = Ok [("x", true)].
Proof. reflexivity. Qed.

Lemma trace_parameters_zip_witness :
  trace_parameters add_sub_def (PyTuple ([PyInt 1; PyInt 2] ++ [PyInt 3]))
  = trace_parameters add_sub_def (PyTuple [PyInt 1; PyInt 2]).
Proof.
  apply (proj2 (trace_parameters_zip (H := toy) add_sub_def
                  [PyInt 1; PyInt 2] [PyInt 3])).
  reflexivity.
Defined.

Example call_with_two_arguments :
  __call__ [PyInt 4; PyInt 5] [] (square_def [])
  = (Ok (PyTuple [PyInt 4; PyInt 5]),
     with_graph (square_def [PyTuple [PyInt 4; PyInt 5]]) (Some ("square", 0))).
Proof. reflexivity. Qed.

Lemma call_records_sample_witness :
  __call__ [PyInt 5] [("x", PyInt 5)] (square_def [])
  = (Raise (RuntimeError "Calling function 'square' with kwargs is not supported"),
     square_def []).
Proof.
  apply (proj1 (call_records_sample (H := toy) [PyInt 5] [("x", PyInt 5)]
                  (square_def []))).
  discriminate.
Defined.

Lemma evaluate_success_witness :
  inputset (fst (snd (_evaluate "Compiling" (Some [PyInt 19]) toy_configuration
                                (square_def [PyInt 3], []))))
  = [PyInt 3; PyInt 19].
Proof.
  apply (proj1 (evaluate_success (H := toy) (square_def [PyInt 3]) _ "Compiling"
                  (Some [PyInt 19]) toy_configuration []
                  [GraphSnapshot "final" ("square", 5)] eq_refl eq_refl)).
Defined.

Lemma evaluate_no_rollback_later_witness :
  inputset (fst (snd (_evaluate "Compiling" (Some [PyInt 19]) toy_configuration
                                (square_def [PyInt 3], []))))
  = [PyInt 3; PyInt 19].
Proof.
  apply (evaluate_no_rollback_later (H := toy) (square_def [PyInt 3]) "Compiling"
           (Some [PyInt 19]) toy_configuration []).
  - reflexivity.
  - intros sample [<-|[]]. reflexivity.
Defined.

Lemma evaluate_existing_graph_witness :
  _evaluate "Compiling" (Some [PyInt 19]) toy_configuration (square_measured, [])
  = (Ok tt,
     (with_graph (square_def [PyInt 3; PyInt 19]) (Some ("square", 5)),
      [GraphSnapshot "final" ("square", 5)])).
Proof.
  refine (evaluate_existing_graph (H := toy) square_measured ("square", 2)
            "Compiling" (Some [PyInt 19]) toy_configuration []
            eq_refl eq_refl eq_refl eq_refl _).
  intros sample [<-|[]]. reflexivity.
Defined.

End CircuitDefMore.

(** ** [CircuitDef._evaluate], twice *)

Module EvaluateTwice.
Import CircuitDef CircuitDefFacts CircuitDefMore Analysis.

Section Twice.
Context `{External}.







Variable Structure : Type.
Variable structure : Graph -> Structure.


End Twice.

(** *** On the small instance *)

Import Toy.
Local Open Scope Z_scope.






Example evaluate_twice :
  _evaluate "Compiling" (Some [PyInt 3; PyInt 19]) toy_configuration
            (with_graph (square_def [PyInt 3; PyInt 19]) (Some ("square", 5%nat)),
             [GraphSnapshot "final" ("square", 5%nat)])
  = (Ok tt,
     (with_graph (square_def [PyInt 3; PyInt 19; PyInt 3; PyInt 19])
                 (Some ("square", 5%nat)),
      [GraphSnapshot "final" ("square", 5%nat);
       GraphSnapshot "final" ("square", 5%nat)])).
Proof. reflexivity. Qed.

End EvaluateTwice.

(** ** More on [ProgramCompiler] *)

Module ProgramMore.
Import CircuitDefFacts ProgramFacts.

Section More.
Context `{External}.
Import ProgramCompiler.

Lemma mem_true_In (x : string) (l : list string) : mem x l = true <-> In x l.
Proof.
  unfold mem. rewrite existsb_exists. split.
  - intros (y & Hy & Heq). apply String.eqb_eq in Heq. now subst.
  - intros Hin. exists x. split; [assumption | apply String.eqb_refl].
Qed.

Lemma dict_set_keys {V} (d : list (string * V)) (key : string) (v : V) :
  In key (map fst d) -> map fst (dict_set d key v) = map fst d.
Proof.
  induction d as [|[k v'] d IH]; cbn; [contradiction|].
  destruct (String.eqb_spec key k) as [->|Hne]; [reflexivity|].
  intros [Heq|Hin]; [congruence|]. cbn. now rewrite IH.
Qed.

Lemma dict_get_In {V} (d : list (string * V)) (key : string) (v : V) :
  dict_get d key = Some v -> In (key, v) d.
Proof.
  induction d as [|[k v'] d IH]; cbn; [discriminate|].
  destruct (String.eqb_spec key k) as [->|Hne].
  - intros [= ->]. now left.
  - intros Hget. right. now apply IH.
Qed.

Lemma In_dict_get {V} (d : list (string * V)) (key : string) (v : V) :
  NoDup (map fst d) -> In (key, v) d -> dict_get d key = Some v.
Proof.
  induction d as [|[k v'] d IH]; cbn; [contradiction|].
  intros Hnodup. inversion Hnodup as [|? ? Hk Hd]; subst.
  intros [[= -> ->]|Hin].
  - now rewrite String.eqb_refl.
  - destruct (String.eqb_spec key k) as [->|Hne]; [|now apply IH].
    exfalso. apply Hk. apply in_map_iff. now exists (k, v).
Qed.

(** X12: attribute lookup on a compiler and its table of circuits: a lookup
    that returns gives a circuit definition registered under that name;
    with distinct names every registered pair is found; the lookup
    returns exactly for the registered names; and for any other name, as
    [default_configuration], it raises [AttributeError] with the message
    [No attribute] followed by the name. *)
Theorem getattr_finds_circuits (self : t) (item : string) (circuit : CircuitDef.t) :
  (__getattr__ self item = Ok circuit -> In (item, circuit) (circuits self))
  /\ (NoDup (map fst (circuits self)) ->
      In (item, circuit) (circuits self) -> __getattr__ self item = Ok circuit)
  /\ (is_ok (__getattr__ self item) = true <-> In item (map fst (circuits self)))
  /\ (~ In item (map fst (circuits self)) ->
      __getattr__ self item = Raise (AttributeError ("No attribute " ++ item))).
Proof.
  unfold __getattr__, dict_item. split; [|split; [|split]].
  - destruct (mem item _); cbn; [|discriminate].
    destruct (dict_get _ item) as [c|] eqn:Hget; [|discriminate].
    intros [= <-]. now apply dict_get_In.
  - intros Hnodup Hin.
    assert (Hmem : mem item (map fst (circuits self)) = true).
    { apply mem_true_In, in_map_iff. now exists (item, circuit). }
    rewrite Hmem. cbn. now rewrite (In_dict_get _ _ _ Hnodup Hin).
  - rewrite <- mem_true_In.
    destruct (mem item (map fst (circuits self))) eqn:Hmem; cbn.
    + destruct (mem_dict_item _ _ Hmem) as [c Hc]. unfold dict_item in Hc.
      destruct (dict_get _ item); [now split | discriminate].
    + split; discriminate.
  - intros Hnot.
    destruct (mem item (map fst (circuits self))) eqn:Hmem; cbn; [|reflexivity].
    exfalso. apply Hnot. now apply mem_true_In.
Qed.


Lemma preserves_assert {S} (P : S -> Prop) (cond : bool) : preserves P (assert cond).
Proof. destruct cond; [apply preserves_ret | apply preserves_raise]. Qed.

(** The first loop of [compile] touches the circuit definitions and the
    artifacts only: the runtime, the options and the names stay. *)
Lemma evaluate_circuits_frame (inputsets : option (list (string * list PyAny)))
    (items : list (string * CircuitDef.t)) (w : World) (c : Configuration)
    (ctx : CompilationContext) (names : list string) :
  (forall item, In item items -> In (fst item) names) ->
  preserves (fun s => world s = w
                      /\ configuration (compiler s) = c
                      /\ compilation_context (compiler s) = ctx
                      /\ map fst (circuits (compiler s)) = names)
            (evaluate_circuits inputsets items).
Proof.
  induction items as [|[name circuit] items IH]; intros Hnames;
    cbn [evaluate_circuits].
  - apply preserves_ret.
  - apply preserves_bind; [apply preserves_lift|]. intros inputset.
    apply preserves_bind_get. intros s (Hw & Hc & Hctx & Hkeys).
    apply preserves_bind; [apply preserves_lift|]. intros circuit_artifacts.
    destruct (CircuitDef._evaluate _ _ _ _) as [outcome [circuit' circuit_artifacts']].
    apply preserves_bind.
    { apply preserves_modify. intros s' (Hw' & Hc' & Hctx' & Hkeys'). cbn.
      repeat split; try assumption.
      rewrite dict_set_keys; [assumption|]. rewrite Hkeys'.
      apply (Hnames (name, circuit)). now left. }
    intros _. apply preserves_bind.
    { unfold update_artifacts. now apply preserves_modify. }
    intros _. apply preserves_bind; [apply preserves_lift|]. intros _.
    apply preserves_bind; [apply preserves_assert|]. intros _.
    apply IH. intros item Hitem. apply Hnames. now right.
Qed.

Lemma mapM_fst {A B} (f : string * A -> Result (string * B))
    (l : list (string * A)) (l' : list (string * B)) :
  (forall a b, f a = Ok b -> fst b = fst a) ->
  mapM f l = Ok l' -> map fst l' = map fst l.
Proof.
  intros Hname. revert l'. induction l as [|a l IH]; cbn; intros l'.
  - now intros [= <-].
  - destruct (f a) as [b|] eqn:Hfa; [|discriminate].
    destruct (mapM f l) as [bs|]; [|discriminate].
    intros [= <-]. cbn. rewrite (Hname a b Hfa). f_equal. now apply IH.
Qed.

Lemma circuit_graphs_names (circuits : list (string * CircuitDef.t))
    (graphs : list (string * Graph)) :
  circuit_graphs circuits = Ok graphs -> map fst graphs = map fst circuits.
Proof.
  apply mapM_fst. intros [name circuit] [name' g]. cbn.
  destruct (CircuitDef.graph circuit); [|discriminate]. now intros [= -> _].
Qed.

(** What a constructed program holds. *)
Lemma program_init_fields (graphs : list (string * Graph)) (mlir : MlirModule)
    (ctx : CompilationContext) (c : Configuration) (w w' : World) (p : Program.t) :
  Program.__init__ graphs mlir ctx (Some c) w = (Ok p, w') ->
  Program.configuration p = c
  /\ Program.graphs p = graphs
  /\ Program.mlir_module p = mlir
  /\ Program.compilation_context p = ctx.
Proof.
  unfold Program.__init__, Program.assert_that, bind, assert, ret, raise.
  destruct (fhe_simulation c || fhe_execution c); [|discriminate].
  destruct (fhe_simulation c).
  - destruct (Server_create mlir c true ctx w) as [[server|e] w1]; [|discriminate].
    intros [= <- _]. now repeat split.
  - destruct (Server_create mlir c false ctx w) as [[server|e] w1]; [|discriminate].
    destruct (use_insecure_key_cache c).
    + destruct (enable_unsafe_features c); [|discriminate].
      destruct (Program.is_some (insecure_key_cache_location c)); [|discriminate].
      destruct (Client_new _ _ w1) as [[client|e] w2]; [|discriminate].
      intros [= <- _]. now repeat split.
    + destruct (Client_new _ _ w1) as [[client|e] w2]; [|discriminate].
      intros [= <- _]. now repeat split.
Qed.

(** The body of the [try] statement, when it returns. *)
Lemma compile_body_returns (inputsets : option (list (string * list PyAny)))
    (c : Configuration) (s s' : Session) (p : Program.t) :
  compile_body inputsets c s = (Ok p, s') ->
  exists s1,
    evaluate_circuits inputsets (circuits (compiler s)) s = (Ok tt, s1)
    /\ compiler s' = compiler s1
    /\ circuit_graphs (circuits (compiler s1)) = Ok (Program.graphs p)
    /\ Program.configuration p = c
    /\ Program.compilation_context p = compilation_context (compiler s1)
    /\ convert_many (Program.graphs p) (configuration (compiler s1))
                    (mlir_context (compilation_context (compiler s1)))
       = Ok (Program.mlir_module p)
    /\ exists a, program_artifacts s' = Some a
                 /\ pa_mlir_to_compile a = Some (MlirModule_str (Program.mlir_module p)).
Proof.
  unfold compile_body, bind at 1, get.
  unfold bind at 1.
  destruct (evaluate_circuits inputsets (circuits (compiler s)) s) as [[[]|e] s1];
    [|discriminate].
  intros Hrest. exists s1. split; [reflexivity|]. revert Hrest.
  unfold bind, lift, update_artifacts, modify, on_world, zoom, self_configuration, ret.
  destruct (circuit_graphs (circuits (compiler s1))) as [graphs|e]; [|discriminate].
  destruct (convert_many graphs _ _) as [mlir_module|e] eqn:Hconvert; [|discriminate].
  cbn [world with_program_artifacts compiler].
  destruct (Program.__init__ graphs mlir_module _ (Some c) (world s1))
    as [[output|e] w'] eqn:Hinit; [|discriminate].
  destruct (program_init_fields _ _ _ _ _ _ _ Hinit) as (Hc & Hg & Hm & Hctx).
  destruct (Program.rt output); intros [= <- <-]; cbn;
    rewrite Hg, Hm, Hctx; repeat split; try assumption; eexists; split; reflexivity.
Qed.


(** X13: what a compilation that returns has done: the program carries the
    configuration of the call (the argument, forked by the keyword
    options), while its module is the conversion of the graphs under the
    configuration of the compiler; it has one graph per circuit, in the
    order of the circuits, each the graph now held by the circuit
    definition; the compilation context is the compiler's; and the
    artifacts hold the text of the module. *)
Theorem compile_returns (inputsets : option (list (string * list PyAny)))
    (configuration : option Configuration) (kwargs : list (string * PyAny))
    (s s' : Session) (p : Program.t) :
  compile inputsets configuration kwargs s = (Ok p, s') ->
  effective_configuration (compiler s) configuration kwargs
  = Ok (IsConfiguration (Program.configuration p))
  /\ map fst (Program.graphs p) = map fst (circuits (compiler s))
  /\ map fst (circuits (compiler s')) = map fst (circuits (compiler s))
  /\ circuit_graphs (circuits (compiler s')) = Ok (Program.graphs p)
  /\ Program.compilation_context p = compilation_context (compiler s)
  /\ convert_many (Program.graphs p) (ProgramCompiler.configuration (compiler s))
                  (mlir_context (compilation_context (compiler s)))
     = Ok (Program.mlir_module p)
  /\ exists a, program_artifacts s' = Some a
               /\ pa_mlir_to_compile a = Some (MlirModule_str (Program.mlir_module p)).
Proof.
  unfold compile, bind at 1, get. unfold bind at 1, lift.
  destruct (effective_configuration _ _ _) as [[c|circuit]|e]; [|discriminate..].
  destruct (composable c); cbn [negb]; [|discriminate].
  unfold bind, update_artifacts, modify, try_except.
  set (s0 := with_program_artifacts s (Some (the_artifacts s))).
  destruct (compile_body inputsets c s0) as [[output|e] s1] eqn:Hbody.
  2:{ destruct (dump_artifacts_on_unexpected_failures _); discriminate. }
  intros [= <- <-].
  destruct (compile_body_returns _ _ _ _ _ Hbody)
    as (s1' & Hloop & Hcompiler & Hgraphs & Hc & Hctx & Hconvert & Hartifacts).
  pose proof (evaluate_circuits_frame inputsets (circuits (compiler s0))
                (world s0) (ProgramCompiler.configuration (compiler s0))
                (compilation_context (compiler s0))
                (map fst (circuits (compiler s0)))
                (fun item Hitem => in_map fst _ _ Hitem) s0
                (conj eq_refl (conj eq_refl (conj eq_refl eq_refl)))) as Hframe.
  rewrite Hloop in Hframe. cbn [snd] in Hframe.
  destruct Hframe as (_ & Hconfiguration & Hcontext & Hnames).
  change (compiler s0) with (compiler s) in *.
  rewrite Hcompiler. rewrite Hconfiguration, Hcontext in *.
  repeat split; try assumption.
  - now rewrite Hc.
  - rewrite (circuit_graphs_names _ _ Hgraphs). assumption.
Qed.

(** After the first loop nothing in the body changes the compiler. *)
Lemma compile_body_compiler (inputsets : option (list (string * list PyAny)))
    (c : Configuration) (s : Session) :
  compiler (snd (compile_body inputsets c s))
  = compiler (snd (evaluate_circuits inputsets (circuits (compiler s)) s)).
Proof.
  unfold compile_body, bind at 1, get. unfold bind at 1.
  destruct (evaluate_circuits inputsets (circuits (compiler s)) s) as [[[]|e] s1];
    [|reflexivity].
  cbn [snd].
  apply (preserves_bind_get (fun s' => compiler s' = compiler s1)); [|reflexivity].
  intros s2 Hs2.
  apply preserves_bind; [apply preserves_lift|]. intros graphs.
  apply preserves_bind; [apply preserves_lift|]. intros mlir_module.
  apply preserves_bind; [unfold update_artifacts; now apply preserves_modify|].
  intros _. apply preserves_bind.
  { intros s3 Hs3. unfold on_world, zoom.
    now destruct (Program.__init__ _ _ _ _ (world s3)). }
  intros output. apply preserves_bind; [|intros _; apply preserves_ret].
  destruct (Program.rt output);
    [unfold update_artifacts; now apply preserves_modify | apply preserves_ret].
Qed.

Lemma compile_compiler (inputsets : option (list (string * list PyAny)))
    (configuration : option Configuration) (kwargs : list (string * PyAny))
    (s : Session) (c : Configuration) :
  effective_configuration (compiler s) configuration kwargs = Ok (IsConfiguration c) ->
  composable c = true ->
  compiler (snd (compile inputsets configuration kwargs s))
  = compiler (snd (evaluate_circuits inputsets (circuits (compiler s))
                     (with_program_artifacts s (Some (the_artifacts s))))).
Proof.
  intros Heffective Hcomposable.
  unfold compile, bind at 1, get. unfold bind at 1, lift. rewrite Heffective.
  rewrite Hcomposable. cbn [negb].
  unfold bind at 1, update_artifacts at 1, modify at 1, try_except.
  set (s0 := with_program_artifacts s (Some (the_artifacts s))).
  change (circuits (compiler s)) with (circuits (compiler s0)).
  rewrite <- (compile_body_compiler inputsets c s0).
  destruct (compile_body inputsets c s0) as [[output|e] s1]; [reflexivity|].
  cbn [snd]. unfold bind, update_artifacts, modify, ret, raise.
  now destruct (dump_artifacts_on_unexpected_failures _).
Qed.

(** X14: the configuration passed to [compile] does not reach the
    circuits: whichever composable configuration the call ends with, the
    circuit definitions are evaluated under the configuration of the
    compiler and are left the same. *)
Theorem compile_evaluates_with_own_options
    (inputsets : option (list (string * list PyAny)))
    (configuration1 configuration2 : option Configuration)
    (kwargs1 kwargs2 : list (string * PyAny)) (s : Session)
    (c1 c2 : Configuration) :
  effective_configuration (compiler s) configuration1 kwargs1
  = Ok (IsConfiguration c1) ->
  effective_configuration (compiler s) configuration2 kwargs2
  = Ok (IsConfiguration c2) ->
  composable c1 = true -> composable c2 = true ->
  compiler (snd (compile inputsets configuration1 kwargs1 s))
  = compiler (snd (compile inputsets configuration2 kwargs2 s)).
Proof.
  intros He1 He2 Hc1 Hc2.
  rewrite (compile_compiler _ _ _ _ _ He1 Hc1), (compile_compiler _ _ _ _ _ He2 Hc2).
  reflexivity.
Qed.

Lemma bind_ext {S A B} (m : M S A) (k1 k2 : A -> M S B) (s : S) :
  (forall a s', k1 a s' = k2 a s') -> bind m k1 s = bind m k2 s.
Proof.
  intros Hk. unfold bind. destruct (m s) as [[a|e] s']; [apply Hk | reflexivity].
Qed.

Lemma evaluate_circuits_agree
    (inputsets1 inputsets2 : option (list (string * list PyAny)))
    (items : list (string * CircuitDef.t)) :
  (forall item, In item items ->
     inputsets_item inputsets1 (fst item) = inputsets_item inputsets2 (fst item)) ->
  forall s, evaluate_circuits inputsets1 items s = evaluate_circuits inputsets2 items s.
Proof.
  induction items as [|[name circuit] items IH]; intros Hagree s; [reflexivity|].
  cbn [evaluate_circuits].
  pose proof (Hagree (name, circuit) (or_introl eq_refl)) as Hname. cbn [fst] in Hname.
  rewrite Hname.
  apply bind_ext. intros inputset s1.
  apply bind_ext. intros s2 s3.
  apply bind_ext. intros circuit_artifacts s4.
  destruct (CircuitDef._evaluate _ _ _ _) as [outcome [circuit' circuit_artifacts']].
  apply bind_ext. intros _ s5.
  apply bind_ext. intros _ s6.
  apply bind_ext. intros _ s7.
  apply bind_ext. intros _ s8.
  apply IH. intros item Hitem. apply Hagree. now right.
Qed.

Lemma compile_body_agree
    (inputsets1 inputsets2 : option (list (string * list PyAny)))
    (c : Configuration) (s : Session) :
  (forall name, In name (map fst (circuits (compiler s))) ->
     inputsets_item inputsets1 name = inputsets_item inputsets2 name) ->
  compile_body inputsets1 c s = compile_body inputsets2 c s.
Proof.
  intros Hagree. unfold compile_body, bind at 1, get. unfold bind at 5.
  unfold bind at 1. unfold bind at 4.
  rewrite (evaluate_circuits_agree inputsets1 inputsets2); [reflexivity|].
  intros item Hitem. apply Hagree. now apply in_map.
Qed.

(** X15: [compile] reads [inputsets] only at the names of its circuits:
    two dictionaries that agree there give the same outcome and the same
    state, so an entry for a name that is no circuit is silently
    ignored. *)
Theorem compile_reads_named_inputsets
    (inputsets1 inputsets2 : option (list (string * list PyAny)))
    (configuration : option Configuration) (kwargs : list (string * PyAny))
    (s : Session) :
  (forall name, In name (map fst (circuits (compiler s))) ->
     inputsets_item inputsets1 name = inputsets_item inputsets2 name) ->
  compile inputsets1 configuration kwargs s = compile inputsets2 configuration kwargs s.
Proof.
  intros Hagree. unfold compile, bind, get, lift.
  destruct (effective_configuration _ _ _) as [[c|circuit]|e]; try reflexivity.
  destruct (negb (composable c)); [reflexivity|].
  unfold update_artifacts, modify, try_except.
  now rewrite (compile_body_agree inputsets1 inputsets2).
Qed.

(** X16: when [inputsets] has no entry for the first circuit (or is
    [None]) the lookup error leaves [compile] as it is, nothing has been
    traced, and the artifacts are exported exactly when the configuration
    of the compiler, not the one of the call, asks for a dump. *)
Theorem compile_missing_inputset (inputsets : option (list (string * list PyAny)))
    (configuration : option Configuration) (kwargs : list (string * PyAny))
    (s : Session) (c : Configuration) (name : string) (circuit : CircuitDef.t)
    (others : list (string * CircuitDef.t)) (e : Exception) :
  effective_configuration (compiler s) configuration kwargs = Ok (IsConfiguration c) ->
  composable c = true ->
  circuits (compiler s) = (name, circuit) :: others ->
  inputsets_item inputsets name = Raise e ->
  compile inputsets configuration kwargs s
  = (Raise e,
     with_program_artifacts s
       (Some (if dump_artifacts_on_unexpected_failures
                   (ProgramCompiler.configuration (compiler s))
              then export (the_artifacts s) else the_artifacts s))).
Proof.
  intros Heffective Hcomposable Hcircuits Hitem.
  unfold compile, bind at 1, get. unfold bind at 1, lift. rewrite Heffective.
  rewrite Hcomposable. cbn [negb].
  unfold bind at 1, update_artifacts at 1, modify at 1, try_except.
  unfold compile_body, bind at 1, get. unfold bind at 1.
  cbn [compiler with_program_artifacts]. rewrite Hcircuits.
  cbn [evaluate_circuits]. unfold bind at 1, lift at 1. rewrite Hitem.
  unfold self_configuration, bind, update_artifacts, modify, ret, raise.
  destruct (dump_artifacts_on_unexpected_failures _); reflexivity.
Qed.

End More.

(** *** On the small instance *)

Import Toy Samples.

Lemma getattr_finds_circuits_witness :
  ProgramCompiler.__getattr__ compiler "square" = Ok (square_def []).
Proof.
  apply (proj1 (proj2 (getattr_finds_circuits (H := toy) compiler "square"
                         (square_def [])))).
  - repeat constructor. intros [].
  - left. reflexivity.
Defined.

Example default_configuration_is_no_circuit :
  ProgramCompiler.__getattr__ compiler "default_configuration"
  = Raise (AttributeError "No attribute default_configuration").
Proof. reflexivity. Qed.

Lemma compile_returns_witness :
  exists p s',
    ProgramCompiler.compile (Some [("square", [PyInt 3; PyInt 19])])
                            (Some execution_only) [] session = (Ok p, s')
    /\ map fst (Program.graphs p) = ["square"].
Proof.
  eexists. eexists. split; [vm_compute; reflexivity|].
  refine (proj1 (proj2 (compile_returns (H := toy)
                          (Some [("square", [PyInt 3; PyInt 19])])
                          (Some execution_only) [] session _ _ _))).
  vm_compute. reflexivity.
Defined.

Lemma compile_evaluates_with_own_options_witness :
  ProgramCompiler.compiler
    (snd (ProgramCompiler.compile (Some [("square", [PyInt 3])])
                                  (Some execution_only) [] session))
  = ProgramCompiler.compiler
      (snd (ProgramCompiler.compile (Some [("square", [PyInt 3])])
                                    (Some both_modes) [] session)).
Proof.
  apply (compile_evaluates_with_own_options (H := toy)
           (Some [("square", [PyInt 3])]) (Some execution_only) (Some both_modes)
           [] [] session execution_only both_modes); reflexivity.
Defined.

Lemma compile_reads_named_inputsets_witness :
  ProgramCompiler.compile (Some [("square", [PyInt 3]); ("cube", [PyInt 1])])
                          (Some execution_only) [] session
  = ProgramCompiler.compile (Some [("square", [PyInt 3])])
                            (Some execution_only) [] session.
Proof.
  apply (compile_reads_named_inputsets (H := toy)).
  intros name [<-|[]]. reflexivity.
Defined.

Lemma compile_missing_inputset_witness :
  fst (ProgramCompiler.compile (Some [("cube", [PyInt 1])])
                               (Some execution_only) [] session)
  = Raise (KeyError "square").
Proof.
  exact (f_equal fst
           (compile_missing_inputset (H := toy) (Some [("cube", [PyInt 1])])
              (Some execution_only) [] session execution_only "square"
              (square_def []) [] (KeyError "square")
              eq_refl eq_refl eq_refl eq_refl)).
Defined.

End ProgramMore.

(** ** More on [Program] and [ProgramCircuit] *)

Module RuntimeMore.
Import ProgramFacts.

Section More.
Context `{External}.

Lemma getattr_of_name (self : Program.t) (name : string) :
  In name (map fst (Program.graphs self)) ->
  exists g,
    In (name, g) (Program.graphs self)
    /\ Program.__getattr__ self name
       = Ok {| ProgramCircuit.name := name;
               ProgramCircuit.rt := Program.rt self;
               ProgramCircuit.graph := g |}.
Proof.
  intros Hin. unfold Program.__getattr__.
  assert (Hmem : mem name (map fst (Program.graphs self)) = true).
  { unfold mem. apply existsb_exists. exists name.
    split; [assumption | apply String.eqb_refl]. }
  rewrite Hmem. cbn [negb]. unfold dict_item.
  destruct (dict_get (Program.graphs self) name) as [g|] eqn:Hget.
  - exists g. split; [|reflexivity].
    clear Hmem Hin. revert Hget.
    induction (Program.graphs self) as [|[k v] d IH]; cbn; [discriminate|].
    destruct (String.eqb_spec name k) as [->|Hne].
    + intros [= ->]. now left.
    + intros Hget. right. now apply IH.
  - destruct (mem_dict_item _ _ Hmem) as [g Hg]. unfold dict_item in Hg.
    now rewrite Hget in Hg.
Qed.

(** X17: [Program.circuits()] never raises: it returns one circuit per
    graph of the program, in the order of the graphs, each carrying its
    name, the runtime of the program and a graph registered under that
    name; attribute lookup of any other name raises [AttributeError]. *)
Theorem program_circuits (self : Program.t) :
  (forall item,
     ~ In item (map fst (Program.graphs self)) ->
     Program.__getattr__ self item = Raise (AttributeError ("No attribute " ++ item)))
  /\ exists l,
       Program.circuits self = Ok l
       /\ map fst l = map fst (Program.graphs self)
       /\ forall name circuit,
            In (name, circuit) l ->
            ProgramCircuit.name circuit = name
            /\ ProgramCircuit.rt circuit = Program.rt self
            /\ In (name, ProgramCircuit.graph circuit) (Program.graphs self).
Proof.
  split.
  - intros item Hnot. unfold Program.__getattr__.
    destruct (mem item (map fst (Program.graphs self))) eqn:Hmem; [|reflexivity].
    exfalso. apply Hnot. unfold mem in Hmem. apply existsb_exists in Hmem.
    destruct Hmem as (y & Hy & Heq). apply String.eqb_eq in Heq. now subst.
  - unfold Program.circuits.
    assert (Hall : forall name, In name (map fst (Program.graphs self)) ->
                     In name (map fst (Program.graphs self))) by auto.
    revert Hall. generalize (map fst (Program.graphs self)) at 1 3 4.
    intros names. induction names as [|first rest IH]; intros Hall.
    + exists []. split; [reflexivity|]. split; [reflexivity|]. intros n circuit [].
    + destruct IH as (l & Hl & Hnames & Hprops).
      { intros n Hn. apply Hall. now right. }
      destruct (getattr_of_name self first (Hall first (or_introl eq_refl)))
        as (g & Hg & Hget).
      cbn [mapM]. rewrite Hget. cbn [rbind]. rewrite Hl.
      eexists. split; [reflexivity|]. split; [cbn; now rewrite Hnames|].
      intros n circuit [[= <- <-]|Hin]; [now repeat split | now apply Hprops].
Qed.

(** X18: construction in execution mode (simulation off): the server is
    created first, not simulated; the check of the insecure key cache
    comes after, so a configuration that asks for the cache without the
    unsafe features and a cache location fails with [AssertionError] once
    the server exists; otherwise the client is created from the
    specifications of that server, with the cache location only when the
    cache is in use, and the program holds the arguments as given. *)
Theorem init_execution_mode (graphs : list (string * Graph)) (mlir : MlirModule)
    (compilation_context : CompilationContext) (c : Configuration)
    (w w1 : World) (server : Server) :
  fhe_simulation c = false ->
  fhe_execution c = true ->
  Server_create mlir c false compilation_context w = (Ok server, w1) ->
  Program.__init__ graphs mlir compilation_context (Some c) w
  = if use_insecure_key_cache c
       && negb (enable_unsafe_features c
                && Program.is_some (insecure_key_cache_location c))
    then (Raise AssertionError, w1)
    else
      match Client_new (Server_client_specs server)
                       (if use_insecure_key_cache c
                        then insecure_key_cache_location c else None) w1 with
      | (Ok client, w2) =>
          (Ok {| Program.configuration := c;
                 Program.graphs := graphs;
                 Program.mlir_module := mlir;
                 Program.compilation_context := compilation_context;
                 Program.rt := ExecutionRt client server |}, w2)
      | (Raise e, w2) => (Raise e, w2)
      end.
Proof.
  intros Hsimulation Hexecution Hserver.
  unfold Program.__init__, Program.assert_that, bind, assert, ret, raise.
  rewrite Hsimulation, Hexecution. cbn [orb]. rewrite Hserver.
  destruct (use_insecure_key_cache c); cbn [andb].
  - destruct (enable_unsafe_features c); cbn [andb negb]; [|reflexivity].
    destruct (Program.is_some (insecure_key_cache_location c)); cbn [negb];
      [|reflexivity].
    now destruct (Client_new _ _ w1) as [[client|e] w2].
  - now destruct (Client_new _ _ w1) as [[client|e] w2].
Qed.


Lemma mapM_by_position {A B} (f : nat -> A -> Result B) (l : list A) :
  forall (start : nat) (out : list B),
    mapM (fun item : nat * A => f (fst item) (snd item))
         (combine (seq start (List.length l)) l) = Ok out ->
    List.length out = List.length l
    /\ forall i a, nth_error l i = Some a ->
         exists b, f (start + i) a = Ok b /\ nth_error out i = Some b.
Proof.
  induction l as [|x l IH]; intros start out; cbn.
  - intros [= <-]. split; [reflexivity|]. intros [|i] a; discriminate.
  - destruct (f start x) as [y|] eqn:Hy; [|discriminate].
    destruct (mapM _ (combine (seq (S start) (List.length l)) l)) as [ys|] eqn:Hys;
      [|discriminate].
    intros [= <-]. destruct (IH _ _ Hys) as [Hlen Hnth]. split; [cbn; now rewrite Hlen|].
    intros [|i] a; cbn.
    + intros [= <-]. exists y. now rewrite Nat.add_0_r.
    + intros Ha. destruct (Hnth i a Ha) as (b & Hb & Hout).
      exists b. now rewrite Nat.add_succ_r.
Qed.

(** X19: [simulate] exports its validated arguments by position: as many
    exported values as arguments, the [i]-th from the [i]-th argument at
    position [i], [None] left as it is and anything else wrapped in a
    [Value]; its only effect is one run of the server on these values,
    without evaluation keys, and an exception of that run is the
    exception of [simulate]. *)
Theorem simulate_exports_by_position (self : ProgramCircuit.t)
    (args ordered exported : list PyAny) (w : World) :
  is_SimulationRt (ProgramCircuit.rt self) = true ->
  validate_input_args (Server_client_specs (Rt_server (ProgramCircuit.rt self)))
                      args (ProgramCircuit.name self) = Ok ordered ->
  mapM (fun item : nat * PyAny =>
          ProgramCircuit.export_argument self (fst item) (snd item))
       (enumerate ordered) = Ok exported ->
  List.length exported = List.length ordered
  /\ (forall i arg, nth_error ordered i = Some arg ->
        exists value,
          ProgramCircuit.export_argument self i arg = Ok value
          /\ nth_error exported i = Some value
          /\ (arg = PyNone -> value = PyNone)
          /\ (arg <> PyNone -> exists inner, value = PyValue inner))
  /\ (let server_run := Server_run (Rt_server (ProgramCircuit.rt self)) exported None
                                   (ProgramCircuit.name self) w in
      snd (ProgramCircuit.simulate self args w) = snd server_run
      /\ forall e, fst server_run = Raise e ->
                   fst (ProgramCircuit.simulate self args w) = Raise e).
Proof.
  intros Hrt Hvalidate Hexported.
  destruct (mapM_by_position (ProgramCircuit.export_argument self) ordered 0 exported
              Hexported) as [Hlen Hnth].
  split; [assumption|]. split.
  - intros i arg Harg. destruct (Hnth i arg Harg) as (value & Hvalue & Hout).
    cbn [Nat.add] in Hvalue. exists value. repeat split; try assumption.
    + intros ->. cbn in Hvalue. congruence.
    + intros Hsome. revert Hvalue. unfold ProgramCircuit.export_argument.
      destruct arg as [|n|[|d shape] flat|inner|items]; try contradiction.
      all: repeat match goal with
             | |- context [rbind ?r _] => destruct r; cbn [rbind]
             end; try discriminate.
      all: intros [= <-]; now eexists.
  - cbv zeta. unfold ProgramCircuit.simulate, bind, assert, lift, ret.
    rewrite Hrt, Hvalidate. unfold PyAny in *. cbn beta.
    rewrite Hexported.
    destruct (Server_run _ exported None _ w) as [[results|e'] w']; cbn [fst snd].
    + destruct (mapM _ (enumerate (as_tuple results))); cbn [fst snd];
        split; try reflexivity; intros e0; discriminate.
    + split; [reflexivity | now intros e0 [= ->]].
Qed.

End More.

(** *** On the small instance *)

Import Toy Samples.

Lemma program_circuits_witness :
  Program.__getattr__ program "cube" = Raise (AttributeError "No attribute cube").
Proof.
  apply (proj1 (program_circuits (H := toy) program) "cube").
  intros [[=]|[]].
Defined.

Example circuits_of_the_program :
  Program.circuits program = Ok [("square", square_circuit (ExecutionRt tt false))].
Proof. reflexivity. Qed.

Lemma init_execution_mode_witness :
  Program.__init__ [("square", ("square", 5%nat))] ["square"] tt
                   (Some cache_without_gate) 0%nat
  = (Raise AssertionError, 1%nat).
Proof.
  exact (init_execution_mode (H := toy) [("square", ("square", 5%nat))] ["square"] tt
           cache_without_gate 0%nat 1%nat false eq_refl eq_refl eq_refl).
Defined.

Lemma simulate_exports_by_position_witness :
  ProgramCircuit.export_argument (square_circuit (SimulationRt true)) 1 (PyInt 7)
  = Ok (PyValue 7%Z).
Proof.
  destruct (proj1 (proj2 (simulate_exports_by_position (H := toy)
                            (square_circuit (SimulationRt (H := toy) true))
                            [PyNone; PyInt 7] [PyNone; PyInt 7] [PyNone; PyValue 7%Z]
                            0%nat eq_refl eq_refl eq_refl))
              1%nat (PyInt 7) eq_refl)
    as (value & Hvalue & Hnth & _).
  cbn in Hnth. injection Hnth as <-. exact Hvalue.
Defined.

End RuntimeMore.

(** ** [DebugManager] *)

Module DebugManagerFacts.
Import DebugManager.

Section Facts.
Variable Graph : Type.
Variable format : Graph -> string.
Variable format_bit_width_constraints : Graph -> string.
Variable format_bit_width_assignments : Graph -> string.
Variable format_assigned : Graph -> string.
Variable columns : nat.

Local Abbreviation debug_all := (debug_all Graph format format_bit_width_constraints
                         format_bit_width_assignments format_assigned columns).
Local Abbreviation table_of := (table_of Graph format format_bit_width_constraints
                        format_bit_width_assignments format_assigned columns).

Lemma append_assoc (a b c : string) : ((a ++ b) ++ c)%string = (a ++ b ++ c)%string.
Proof. induction a as [|x a IH]; cbn; [reflexivity | now rewrite IH]. Qed.

Lemma append_empty (a : string) : (a ++ EmptyString)%string = a.
Proof. induction a as [|x a IH]; cbn; [reflexivity | now rewrite IH]. Qed.

(** An activated table around a body that prints [text]. *)
Lemma table_printed (title text : string) (c : Console) :
  with_ (debug_table columns title true) (print text) c
  = (Ok tt,
     {| is_first := false;
        stdout := stdout c ++ (if is_first c then newline else EmptyString)
                  ++ table columns title text |}).
Proof.
  unfold with_, debug_table, begin_call, table, bind, get, ret, print, modify.
  destruct c as [[|] out]; cbn -[newline rule];
    now rewrite ?append_assoc, ?append_empty.
Qed.


Lemma debug_one (self : Options.t) (report : Report Graph) (c : Console) :
  debug Graph format format_bit_width_constraints format_bit_width_assignments
        format_assigned columns self report c
  = if shown Graph self report
    then (Ok tt,
          {| is_first := false;
             stdout := stdout c ++ (if is_first c then newline else EmptyString)
                       ++ table_of report |})
    else (Ok tt, c).
Proof.
  destruct report as [name g|name g|name g|name g|mlir_str];
    cbn [debug shown table_of];
    unfold debug_computation_graph, debug_bit_width_constaints,
      debug_bit_width_assignments, debug_assigned_graph, debug_mlir.
  - destruct (show_graph self); [|now destruct (_ || _)].
    cbn [orb]. apply table_printed.
  - destruct (show_bit_width_constraints self); [apply table_printed | reflexivity].
  - destruct (show_bit_width_assignments self); [apply table_printed | reflexivity].
  - destruct (show_assigned_graph self); [apply table_printed | reflexivity].
  - destruct (show_mlir self); [apply table_printed | reflexivity].
Qed.

(** X20: what a run of reports prints, on every configuration: one table
    for each report whose own toggle is on (the toggle itself, or
    [verbose] when it is unset), in the order of the calls, and nothing
    for the others; in particular the computation graph is printed exactly
    when [show_graph] is on, whatever the six other toggles that
    [debug_computation_graph] consults. A single blank line goes before
    the first table of a manager, and [is_first] is cleared exactly when
    something was printed. *)
Theorem debug_all_output (self : Options.t) (reports : list (Report Graph))
    (c : Console) :
  let printed := filter (shown Graph self) reports in
  debug_all self reports c
  = (Ok tt,
     {| is_first := is_first c && negb (existsb (shown Graph self) reports);
        stdout := stdout c
                  ++ (if is_first c && existsb (shown Graph self) reports
                      then newline else EmptyString)
                  ++ String.concat EmptyString (map table_of printed) |}).
Proof.
  cbv zeta. revert c. induction reports as [|report reports IH]; intros c.
  - cbn. rewrite !andb_false_r, andb_true_r. cbn. rewrite append_empty.
    now destruct c.
  - cbn [DebugManager.debug_all filter existsb]. unfold bind.
    rewrite debug_one.
    destruct (shown Graph self report); cbn [orb negb map].
    + rewrite IH. cbn [is_first stdout andb]. rewrite !andb_false_r, andb_true_r.
      f_equal. f_equal. rewrite !append_assoc. f_equal.
      destruct (is_first c); cbn [String.append]; f_equal.
      all: destruct (map table_of (filter (shown Graph self) reports)) eqn:Hrest;
        cbn; now rewrite ?append_empty.
    + now rewrite IH.
Qed.

(** X21: an activated table is always closed: whatever its body does,
    return or raise, the closing rule and the blank line are printed after
    what the body printed, and the outcome of the body, exception
    included, is the outcome of the [with] statement; a table that is not
    activated prints nothing around its body. *)
Theorem table_is_closed_when_body_raises {A} (title : string)
    (body : M Console A) (c : Console) :
  let opened := {| is_first := false;
                   stdout := stdout c ++ (if is_first c then newline else EmptyString)
                             ++ title ++ newline ++ rule columns ++ newline |} in
  with_ (debug_table columns title true) body c
  = (fst (body opened),
     {| is_first := is_first (snd (body opened));
        stdout := stdout (snd (body opened))
                  ++ rule columns ++ newline ++ newline |})
  /\ with_ (debug_table columns title false) body c = body c.
Proof.
  cbv zeta. split.
  - unfold with_, debug_table, begin_call, bind, get, ret, print, modify.
    destruct c as [[|] out]; cbn -[newline rule]; rewrite ?append_assoc;
      destruct (body _) as [outcome [first out']]; cbn -[newline rule];
      now rewrite ?append_assoc.
  - unfold with_, debug_table, bind, ret. cbn.
    now destruct (body c) as [outcome c'].
Qed.

End Facts.

(** *** On a concrete manager *)

Import Samples.

Example only_mlir_prints_one_table :
  DebugManager.debug_all string (fun g => g) (fun g => g) (fun g => g) (fun g => g) 4
    only_mlir
    [ComputationGraph string "square" "graph"; Mlir string "module";
     AssignedGraph string "square" "graph"]
    {| is_first := true; stdout := EmptyString |}
  = (Ok tt,
     {| is_first := false;
        stdout := newline ++ table 4 "MLIR" "module" |}).
Proof. reflexivity. Qed.

End DebugManagerFacts.
